(** * Sentiment-Analysis-DL: a shallow embedding of the classification wrapper

    This file embeds the bookkeeping parts of [src/BERT/base_model.py]
    ([ClassificationModel]: label index, batch generator, [fit],
    [predict]) and the data loader of [src/CNN/CNN+glove+Senntiment.py],
    and proves the properties stated about them.

    Conventions of the embedding:
    - a Python exception is a value of [exn]; fallible code returns
      [result A] (with stdpp's monadic notation [x ← m; k]);
    - a Python dict whose insertion order matters is an association list
      ([pydict]), read with [dict_get] (KeyError when missing) and written
      with [dict_set] (update in place, or append a new key);
    - Python floats are IEEE binary64 values of the Standard Library's
      [spec_float], with the round-to-nearest-even operations of SpecFloat;
    - the external collaborators (the embedding's tokenizer, the network's
      forward pass, the sub-class' [build_model], CPython's set iteration
      order, jieba's segmenter) are parameters. *)

From Stdlib Require Import ZArith Lia.
From Stdlib Require Import PrimFloat SpecFloat FloatOps.
From stdpp Require Import base list strings sorting.

Local Set Warnings "-inexact-float,-register-all".
Open Scope Z_scope.

(* ------------------------------------------------------------------ *)
(** ** Python runtime: exceptions, results, dicts, slices *)

Inductive exn :=
  | KeyError
  | IndexError
  | ValueError
  | TypeError
  | ZeroDivisionError
  | AssertionError
  | AttributeError
  | OverflowError
  | NotFittedError   (* scikit-learn's, from an estimator never fitted *)
  | HookError.   (* an exception raised inside an external hook *)

Inductive result (A : Type) : Type :=
  | Ok (a : A)
  | Err (e : exn).
Arguments Ok {A} a.
Arguments Err {A} e.

Global Instance result_ret : MRet result := λ A a, Ok a.
Global Instance result_bind : MBind result := λ A B f m,
  match m with Ok a => f a | Err e => Err e end.

(** [[f x for x in xs]] where [f] may raise: the first exception wins. *)
Fixpoint py_map {A B} (f : A → result B) (xs : list A) : result (list B) :=
  match xs with
  | [] => Ok []
  | x :: xs' => y ← f x; ys ← py_map f xs'; Ok (y :: ys)
  end.

(** Association list standing for an insertion-ordered Python dict. *)
Definition pydict (K V : Type) := list (K * V).

Fixpoint dict_get {K V} `{EqDecision K} (d : pydict K V) (k : K) : result V :=
  match d with
  | [] => Err KeyError
  | (k', v) :: d' => if decide (k = k') then Ok v else dict_get d' k
  end.

(** [d[k] = v]: an existing key keeps its position, a new key goes last. *)
Fixpoint dict_set {K V} `{EqDecision K} (d : pydict K V) (k : K) (v : V)
    : pydict K V :=
  match d with
  | [] => [(k, v)]
  | (k', v') :: d' =>
      if decide (k = k') then (k', v) :: d' else (k', v') :: dict_set d' k v
  end.

(** [dict(pairs)]: later pairs overwrite earlier ones. *)
Definition dict_of_pairs {K V} `{EqDecision K} (ps : list (K * V)) : pydict K V :=
  fold_left (λ d kv, dict_set d kv.1 kv.2) ps [].

Definition dict_keys {K V} (d : pydict K V) : list K := map fst d.

(** [xs[a : b]] for non-negative bounds. *)
Definition py_slice {A} (xs : list A) (a b : nat) : list A :=
  take (b - a) (drop a xs).

(** [xs[i]] for an integer index, negative indices counting from the end. *)
Definition py_index {A} (xs : list A) (i : Z) : result A :=
  let n := Z.of_nat (length xs) in
  let j := if decide (i < 0) then i + n else i in
  if decide (0 <= j < n) then
    match xs !! Z.to_nat j with Some a => Ok a | None => Err IndexError end
  else Err IndexError.

(** [a // b] on non-negative ints. *)
Definition py_floordiv (a b : nat) : result nat :=
  if decide (b = 0%nat) then Err ZeroDivisionError else Ok (a / b)%nat.

(* ------------------------------------------------------------------ *)
(** ** Label index: [build_token2id_label2id_dict] and the converters *)

(** A training target: a label string (single-label) or a list/tuple of
    label strings (multi-label). *)
Inductive target :=
  | TStr (s : string)
  | TSeq (ls : list string).

(** [list(s)] on a str: its characters, each a one-character str. *)
Definition py_list_of_str (s : string) : list string :=
  map (λ c, String c EmptyString) (String.list_ascii_of_string s).

(** CPython's set iteration order.  The order of a [set] of strings
    depends on the (per-process randomised) string hashes; all the code
    relies on is that iterating the set visits every element of the
    inserted sequence exactly once. *)
Record py_set_impl := {
  set_iter : list string → list string;
  set_iter_NoDup : ∀ l, NoDup (set_iter l);
  set_iter_elem : ∀ l x, x ∈ set_iter l ↔ x ∈ l
}.

(** The labels inserted into [label_set], in insertion order.
    Single-label: [set(y_data)]; a list target is unhashable.
    Multi-label: [label_set.union(list(i))] for each target [i]. *)
Definition observed_labels (multi_label : bool) (ys : list target)
    : result (list string) :=
  if multi_label then
    Ok (mjoin (map (λ t, match t with
                          | TStr s => py_list_of_str s
                          | TSeq ls => ls
                          end) ys))
  else
    py_map (λ t, match t with TStr s => Ok s | TSeq _ => Err TypeError end) ys.

(** The embedding's [build_token2idx_dict(corpus, min_count)] method
    (an external library): from the current vocabulary, the new one.  The
    BERT embedding keeps its fixed vocabulary, the others count the
    tokens of the corpus. *)
Definition vocab_builder : Type :=
  list (list string) → nat → pydict string Z → result (pydict string Z).

(** The state of a [ClassificationModel] that the claims are about. *)
Record clf := mk_clf {
  multi_label : bool;
  label2idx : pydict string Z;
  idx2label : pydict Z string;
  mlb_classes : option (list string);  (* [self.multi_label_binarizer]'s [classes] *)
  sequence_length : nat;                (* [self.embedding.sequence_length] *)
  is_bert : bool;                       (* [self.embedding.is_bert] *)
  model_built : bool;                   (* [bool(self.model)] *)
  mlb_fitted : bool;    (* the binarizer has been fitted (it has [classes_]) *)
  token2idx : pydict string Z;          (* [self.embedding.token2idx] *)
  build_token2idx_dict : vocab_builder  (* [self.embedding]'s method *)
}.

(** [self.multi_label_binarizer = MultiLabelBinarizer(classes=cls)] with
    the new label index: a binarizer that is not fitted yet. *)
Definition set_label_index (st : clf) (l2i : pydict string Z) (cls : list string)
    : clf :=
  mk_clf st.(multi_label) l2i
    (dict_of_pairs (map (λ kv, (kv.2, kv.1)) l2i))
    (Some cls) st.(sequence_length) st.(is_bert) st.(model_built)
    false st.(token2idx) st.(build_token2idx_dict).

Definition set_sequence_length (st : clf) (n : nat) : clf :=
  mk_clf st.(multi_label) st.(label2idx) st.(idx2label) st.(mlb_classes)
    n st.(is_bert) st.(model_built)
    st.(mlb_fitted) st.(token2idx) st.(build_token2idx_dict).

Definition set_built (st : clf) : clf :=
  mk_clf st.(multi_label) st.(label2idx) st.(idx2label) st.(mlb_classes)
    st.(sequence_length) st.(is_bert) true
    st.(mlb_fitted) st.(token2idx) st.(build_token2idx_dict).

Definition set_token2idx (st : clf) (vocab : pydict string Z) : clf :=
  mk_clf st.(multi_label) st.(label2idx) st.(idx2label) st.(mlb_classes)
    st.(sequence_length) st.(is_bert) st.(model_built)
    st.(mlb_fitted) vocab st.(build_token2idx_dict).

(** [for idx, label in enumerate(label_set): label2idx[label] = idx] *)
Fixpoint enumerate_into (d : pydict string Z) (idx : Z) (ls : list string)
    : pydict string Z :=
  match ls with
  | [] => d
  | l :: ls' => enumerate_into (dict_set d l idx) (idx + 1) ls'
  end.

(** Lines 97-102: [y_data]; [if x_validate:] is false on [None] and on
    [[]]. *)
Definition join_targets (y_train : list target)
    (x_validate : option (list (list string)))
    (y_validate : option (list target)) : result (list target) :=
  match x_validate with
  | Some (_ :: _) =>
      match y_validate with
      | Some yv => Ok (y_train ++ yv)
      | None => Err TypeError   (* list + None *)
      end
  | _ => Ok y_train
  end.

Section LabelIndex.
Context (S : py_set_impl).

(** Lines 97-101: [x_data]. *)
Definition join_inputs (x_train : list (list string))
    (x_validate : option (list (list string))) : list (list string) :=
  match x_validate with
  | Some (_ :: _ as xv) => x_train ++ xv
  | _ => x_train
  end.

(** [build_token2id_label2id_dict]: the state it leaves and its outcome.
    The embedding's vocabulary is rebuilt from [x_data] (line 103) before
    [set(y_data)] can raise; an exception keeps that change. *)
Definition build_token2id_label2id_dict (st : clf)
    (x_train : list (list string)) (y_train : list target)
    (x_validate : option (list (list string)))
    (y_validate : option (list target)) : clf * result unit :=
  let x_data := join_inputs x_train x_validate in
  match join_targets y_train x_validate y_validate with
  | Err e => (st, Err e)
  | Ok y_data =>
      match st.(build_token2idx_dict) x_data 3%nat st.(token2idx) with
      | Err e => (st, Err e)
      | Ok vocab =>
          let st := set_token2idx st vocab in
          match observed_labels st.(multi_label) y_data with
          | Err e => (st, Err e)
          | Ok labels =>
              let label_set := S.(set_iter) labels in
              let l2i := enumerate_into [] 0 label_set in
              (set_label_index st l2i (dict_keys l2i), Ok ())
          end
      end
  end.
End LabelIndex.

(** Argument of [convert_label_to_idx]: a str or a list of strs. *)
Inductive label_arg :=
  | LStr (s : string)
  | LList (ls : list string).

(** Argument of [convert_idx_to_label]: an int or a list of ints. *)
Inductive idx_arg :=
  | IInt (i : Z)
  | IList (is : list Z).

Definition convert_label_to_idx (st : clf) (label : label_arg) : result idx_arg :=
  match label with
  | LStr s => i ← dict_get st.(label2idx) s; Ok (IInt i)
  | LList ls => is ← py_map (dict_get st.(label2idx)) ls; Ok (IList is)
  end.

Definition convert_idx_to_label (st : clf) (token : idx_arg) : result label_arg :=
  match token with
  | IInt i => s ← dict_get st.(idx2label) i; Ok (LStr s)
  | IList is => ls ← py_map (dict_get st.(idx2label)) is; Ok (LList ls)
  end.

(* ------------------------------------------------------------------ *)
(** ** Keras and scikit-learn helpers used by the generator *)

(** One row of [keras.preprocessing.sequence.pad_sequences] with
    [padding='post'] and the default [truncating='pre']:
    [trunc = s[-maxlen:]] (the whole of [s] when [maxlen = 0]), then
    [x[idx, :len(trunc)] = trunc] into a row of [maxlen] zeros, which
    fails to broadcast when [trunc] is longer than the row.  Empty
    sequences are skipped and stay all padding. *)
Definition pad_row (maxlen : nat) (s : list Z) : result (list Z) :=
  match s with
  | [] => Ok (replicate maxlen 0)
  | _ :: _ =>
      let trunc := if decide (maxlen = 0%nat) then s
                   else drop (length s - maxlen) s in
      if decide (length trunc ≤ maxlen)%nat
      then Ok (trunc ++ replicate (maxlen - length trunc) 0)
      else Err ValueError
  end.

Definition pad_sequences (maxlen : nat) (seqs : list (list Z))
    : result (list (list Z)) :=
  py_map (pad_row maxlen) seqs.

(** One row of [keras.utils.to_categorical(ids, num_classes)]; numpy's
    fancy indexing accepts [-num_classes <= i < num_classes]. *)
Definition one_hot (num_classes : nat) (i : Z) : result (list Z) :=
  let n := Z.of_nat num_classes in
  if decide (-n <= i < n) then
    let j := if decide (i < 0) then i + n else i in
    Ok (map (λ k, if decide (Z.of_nat k = j) then 1 else 0) (seq 0 num_classes))
  else Err IndexError.

(** [keras.utils.to_categorical(ids, num_classes)]: a falsy
    [num_classes] (here 0) is replaced by [np.max(ids) + 1], which raises
    ValueError on no ids; a negative width fails in [np.zeros]. *)
Definition to_categorical (num_classes : nat) (ids : list Z)
    : result (list (list Z)) :=
  num_classes ←
    (if decide (num_classes = 0%nat) then
       match ids with
       | [] => Err ValueError
       | i :: is =>
           let m := foldr Z.max i is + 1 in
           if decide (m < 0) then Err ValueError else Ok (Z.to_nat m)
       end
     else Ok num_classes);
  py_map (one_hot num_classes) ids.

(** One row of [MultiLabelBinarizer(classes=cls).fit_transform]: a
    multi-hot row over [cls]; labels outside [cls] are ignored (with a
    warning).  [fit] with given classes sets [classes_ = cls] whatever it
    is fitted on, so the rows do not depend on whether the binarizer was
    fitted before; drawing such a batch leaves the binarizer fitted. *)
Definition mlb_row (cls : list string) (t : target) : list Z :=
  let ls := match t with TStr s => py_list_of_str s | TSeq ls => ls end in
  map (λ c, if decide (c ∈ ls) then 1 else 0) cls.

(** The first input of a batch: the padded token ids, and for BERT
    embeddings the all-zero segment array of the same shape. *)
Inductive x_input :=
  | XPlain (padded_x : list (list Z))
  | XBert (padded_x : list (list Z)) (segment : list (list Z)).

Definition x_tokens (x : x_input) : list (list Z) :=
  match x with XPlain p => p | XBert p _ => p end.

Record batch := mk_batch { batch_x : x_input; batch_y : list (list Z) }.

(** The number of examples in a batch: the rows of its arrays. *)
Definition batch_rows (b : batch) : nat := length (x_tokens b.(batch_x)).

(* ------------------------------------------------------------------ *)
(** ** [get_data_generator] *)

Section Generator.
(** The embedding's tokenizer on one sentence ([embedding.tokenize]
    maps it over a list of sentences). *)
Context (tokenize_sentence : list string → list Z).

Definition embedding_tokenize (xs : list (list string)) : list (list Z) :=
  map tokenize_sentence xs.

(** [list(range((len(x_data) // batch_size) + 1))] *)
Definition page_list (n batch_size : nat) : result (list nat) :=
  q ← py_floordiv n batch_size; Ok (seq 0 (q + 1)).

(** Lines 140-146: the page's slices, the first page in place of an
    empty one. *)
Definition select_page {A B} (x_data : list A) (y_data : list B)
    (batch_size page : nat) : list A * list B :=
  let start_index := (page * batch_size)%nat in
  let end_index := (start_index + batch_size)%nat in
  let target_x := py_slice x_data start_index end_index in
  let target_y := py_slice y_data start_index end_index in
  if decide (length target_x = 0%nat)
  then (py_slice x_data 0 batch_size, py_slice y_data 0 batch_size)
  else (target_x, target_y).

(** Lines 148-166: tokenize, pad, encode the labels, add the segment
    input. *)
Definition make_batch (st : clf) (target_x : list (list string))
    (target_y : list target) (bert : bool) : result batch :=
  padded_x ← pad_sequences st.(sequence_length) (embedding_tokenize target_x);
  padded_y ← (if st.(multi_label) then
                match st.(mlb_classes) with
                | Some cls => Ok (map (mlb_row cls) target_y)
                | None => Err AttributeError
                end
              else
                ls ← py_map (λ t, match t with
                                  | TStr s => Ok s
                                  | TSeq _ => Err TypeError
                                  end) target_y;
                tokenized_y ← convert_label_to_idx st (LList ls);
                match tokenized_y with
                | IList ids => to_categorical (length st.(label2idx)) ids
                | IInt _ => Err TypeError
                end);
  let x_input_data :=
    if bert then
      XBert padded_x
        (replicate (length padded_x) (replicate st.(sequence_length) 0))
    else XPlain padded_x in
  Ok (mk_batch x_input_data padded_y).

Definition gen_page (st : clf) (x_data : list (list string))
    (y_data : list target) (batch_size : nat) (bert : bool) (page : nat)
    : result batch :=
  let '(target_x, target_y) := select_page x_data y_data batch_size page in
  make_batch st target_x target_y bert.

(** The batches yielded while the [for page in page_list] loop runs
    over the shuffled [page_list] of one pass of [while True], and the
    exception that stops the generator, if any. *)
Fixpoint yield_pages (st : clf) (x_data : list (list string))
    (y_data : list target) (batch_size : nat) (bert : bool)
    (pages : list nat) : list batch * option exn :=
  match pages with
  | [] => ([], None)
  | p :: ps =>
      match gen_page st x_data y_data batch_size bert p with
      | Ok b =>
          let '(bs, e) := yield_pages st x_data y_data batch_size bert ps in
          (b :: bs, e)
      | Err e => ([], Some e)
      end
  end.

(** A prefix of the infinite generator: one shuffle of [page_list] per
    pass of [while True].  A shuffle that is not a permutation of
    [page_list] is not produced by [random.shuffle]; the claims
    quantify over the permutations. *)
Fixpoint get_data_generator (st : clf) (x_data : list (list string))
    (y_data : list target) (batch_size : nat) (bert : bool)
    (shuffles : list (list nat)) : list batch * option exn :=
  match shuffles with
  | [] => ([], None)
  | perm :: rest =>
      match page_list (length x_data) batch_size with
      | Err e => ([], Some e)
      | Ok _ =>
          match yield_pages st x_data y_data batch_size bert perm with
          | (bs, Some e) => (bs, Some e)
          | (bs, None) =>
              let '(bs', e) :=
                get_data_generator st x_data y_data batch_size bert rest in
              (bs ++ bs', e)
          end
      end
  end.

(** The shuffles [random.shuffle] can produce. *)
Definition valid_shuffles (n batch_size : nat) (shuffles : list (list nat))
    : Prop :=
  ∃ pl, page_list n batch_size = Ok pl ∧ Forall (λ perm, perm ≡ₚ pl) shuffles.
End Generator.

(* ------------------------------------------------------------------ *)
(** ** Python floats *)

(** [float(n)] for an int [n]: round to nearest even. *)
Definition py_float_of_nat (n : nat) : spec_float :=
  binary_normalize prec emax (Z.of_nat n) 0 false.

Definition py_fmul (x y : spec_float) : spec_float := SFmul prec emax x y.

(** [int(f)]: truncation toward zero. *)
Definition py_int_of_float (f : spec_float) : result Z :=
  match f with
  | S754_zero _ => Ok 0
  | S754_infinity _ => Err OverflowError
  | S754_nan => Err ValueError
  | S754_finite s m e =>
      let a := Z.shiftl (Zpos m) e in Ok (if s then - a else a)
  end.

(** [int(0.95 * n)] *)
Definition percentile_index (n : nat) : result Z :=
  py_int_of_float (py_fmul (Prim2SF 0.95%float) (py_float_of_nat n)).

(* ------------------------------------------------------------------ *)
(** ** [fit]: a state, trace and exception monad *)

(** A value of the [fit_kwargs] dict: the validation generator [fit]
    builds (with its batch size), the [validation_steps] it computes, or
    a value of the caller's, which [fit] only passes on. *)
Inductive kwarg :=
  | KwGenerator (batch_size : nat)
  | KwSteps (n : nat)
  | KwCaller (v : nat).

(** What [fit] hands to the framework: the two generators it builds and
    the [fit_generator] call with its keyword arguments [**fit_kwargs]. *)
Inductive event :=
  | EvTrainGenerator (batch_size : nat)
  | EvValidationGenerator (batch_size : nat)
  | EvFitGenerator (steps_per_epoch epochs : nat) (fit_kwargs : pydict string kwarg).

(** An exception keeps the mutations made before it. *)
Definition fitM (A : Type) : Type := clf → clf * list event * result A.

Global Instance fitM_ret : MRet fitM := λ A a st, (st, [], Ok a).
Global Instance fitM_bind : MBind fitM := λ A B f m st,
  match m st with
  | (st1, ev1, Ok a) => let '(st2, ev2, r) := f a st1 in (st2, ev1 ++ ev2, r)
  | (st1, ev1, Err e) => (st1, ev1, Err e)
  end.

Definition get_st : fitM clf := λ st, (st, [], Ok st).
Definition put_st (st' : clf) : fitM unit := λ _, (st', [], Ok ()).
Definition emit (ev : event) : fitM unit := λ st, (st, [ev], Ok ()).
Definition lift {A} (r : result A) : fitM A := λ st, (st, [], r).

Section Fit.
Context (S : py_set_impl).
(** The sub-class' [build_model] (the base class raises
    NotImplementedError); on success [self.model] is set. *)
Context (build_model : clf → result unit).

(** Lines 198-202. *)
Definition ensure_model (x_train : list (list string)) : fitM unit :=
  st ← get_st;
  if st.(model_built) then mret ()
  else
    _ ← (if decide (st.(sequence_length) = 0%nat) then
           idx ← lift (percentile_index (length x_train));
           n ← lift (py_index (merge_sort (≤)%nat (map length x_train)) idx);
           put_st (set_sequence_length st n)
         else mret ());
    st ← get_st;
    _ ← lift (build_model st);
    put_st (set_built st).

(** The keywords [fit] passes to [fit_generator] itself: a [fit_kwargs]
    entry with one of them is a second value for it, a TypeError of the
    call. *)
Definition fit_generator_keywords : list string :=
  ["steps_per_epoch"; "epochs"; "class_weight"].

(** [fit]; [class_weight] only adds the label lookups of line 221, the
    weights themselves are scikit-learn's.  The model ends with the call
    of [fit_generator]: its state is the one [fit] hands to the
    framework, and what the framework does with the generators (train
    the network; in multi-label mode each batch it draws fits the
    binarizer) is its own. *)
Definition fit (x_train : list (list string)) (y_train : list target)
    (x_validate : option (list (list string)))
    (y_validate : option (list target))
    (batch_size epochs : nat) (class_weight : bool)
    (fit_kwargs : option (pydict string kwarg)) : fitM unit :=
  _ ← lift (if decide (length x_train = length y_train) then Ok ()
            else Err AssertionError);
  st ← get_st;
  let '(st, r) := build_token2id_label2id_dict S st x_train y_train
                    x_validate y_validate in
  _ ← put_st st;
  _ ← lift r;
  let batch_size := if decide (length x_train < batch_size)%nat
                    then (length x_train / 2)%nat else batch_size in
  _ ← ensure_model x_train;
  _ ← emit (EvTrainGenerator batch_size);
  let fit_kwargs := match fit_kwargs with Some kw => kw | None => [] end in
  fit_kwargs ←
    (match x_validate with
     | Some (_ :: _ as xv) =>
         _ ← emit (EvValidationGenerator batch_size);
         let fit_kwargs :=
           dict_set fit_kwargs "validation_data" (KwGenerator batch_size) in
         q ← lift (py_floordiv (length xv) batch_size);
         mret (dict_set fit_kwargs "validation_steps" (KwSteps (q `max` 1)%nat))
     | _ => mret fit_kwargs
     end);
  _ ← (if class_weight then
         st ← get_st;
         ls ← lift (py_map (λ t, match t with
                                | TStr s => Ok s
                                | TSeq _ => Err TypeError
                                end) y_train);
         _ ← lift (convert_label_to_idx st (LList ls));
         mret ()
       else mret ());
  steps_per_epoch ← lift (py_floordiv (length x_train) batch_size);
  _ ← lift (if existsb (λ k, bool_decide (k ∈ dict_keys fit_kwargs))
                 fit_generator_keywords
            then Err TypeError else Ok ());
  emit (EvFitGenerator steps_per_epoch epochs fit_kwargs).
End Fit.

(* ------------------------------------------------------------------ *)
(** ** [predict] *)

(** An element of the [sentence] argument: a token (the argument is one
    sentence) or a tokenized sentence (the argument is a list of them). *)
Inductive py_elem :=
  | EStr (s : string)
  | ESent (ws : list string).

(** What the embedding's [tokenize] returns: the ids of one sentence, or
    of each sentence of a list. *)
Inductive tokens :=
  | TokOne (t : list Z)
  | TokMany (ts : list (list Z)).

Record candidate := mk_candidate {
  cand_name : string;
  cand_confidence : spec_float
}.

(** The values [predict] returns. *)
Inductive py_out :=
  | OLabel (s : string)                        (* single-label result *)
  | OTuple (ls : list string)                  (* multi-label result *)
  | ODict (words : list string) (cls : candidate)
      (class_candidates : list candidate)      (* [output_dict=True] *)
  | OList (rs : list py_out).

Definition is_nan (x : spec_float) : bool :=
  match x with S754_nan => true | _ => false end.

Definition float_zero : spec_float := S754_zero false.
Definition float_one : spec_float := Prim2SF 1.0%float.

(** The default [multi_label_threshold=0.6]. *)
Definition default_threshold : spec_float := Prim2SF 0.6%float.

(** Lines 284-285 on one row, in order:
    [res[res >= t] = 1] and then [res[res < t] = 0] on the updated array. *)
Definition threshold_row (t : spec_float) (row : list spec_float)
    : list spec_float :=
  let row1 := map (λ x, if SFleb t x then float_one else x) row in
  map (λ x, if SFltb x t then float_zero else x) row1.

(** [numpy.argmax] on one row: the first maximum, or the first NaN. *)
Fixpoint argmax_from (i bi : nat) (b : spec_float) (l : list spec_float) : nat :=
  match l with
  | [] => bi
  | x :: l' =>
      if is_nan x then i
      else if SFltb b x then argmax_from (S i) i x l'
      else argmax_from (S i) bi b l'
  end.

Definition argmax (row : list spec_float) : result Z :=
  match row with
  | [] => Err ValueError
  | x :: l => Ok (Z.of_nat (if is_nan x then 0 else argmax_from 1 0 x l))
  end.

(** [MultiLabelBinarizer.inverse_transform] on one row: the row must have
    one entry per class, each 0 or 1; the classes with a non-zero entry. *)
Definition inverse_transform_row (cls : list string) (row : list spec_float)
    : result py_out :=
  if decide (length row ≠ length cls) then Err ValueError
  else if forallb (λ x, SFeqb x float_zero || SFeqb x float_one) row then
    Ok (OTuple (map fst (filter (λ cx, negb (SFeqb cx.2 float_zero))
                               (zip cls row))))
  else Err ValueError.

(** [sorted(..., key=lambda x: -x[1])]: a stable sort by decreasing
    score.  When no score is NaN the keys are totally ordered and every
    stable sort gives the same list, CPython's timsort as this insertion
    sort; the order timsort gives NaN keys is not modelled. *)
Fixpoint insert_by_score (a : nat * spec_float) (l : list (nat * spec_float))
    : list (nat * spec_float) :=
  match l with
  | [] => [a]
  | b :: l' =>
      if SFltb (SFopp a.2) (SFopp b.2) then a :: b :: l'
      else b :: insert_by_score a l'
  end.

Definition sort_by_score (l : list (nat * spec_float)) : list (nat * spec_float) :=
  fold_left (λ acc a, insert_by_score a acc) l [].

(** The order the sort leaves pairs with non-NaN scores in: a higher
    score first, equal scores in the order of their indices. *)
Definition score_before (a b : nat * spec_float) : Prop :=
  SFltb b.2 a.2 = true ∨ (SFeqb a.2 b.2 = true ∧ (a.1 < b.1)%nat).

(** [_format_output_dic] *)
Definition format_output_dic (st : clf) (words : list string)
    (res : list spec_float) : result py_out :=
  let results := sort_by_score (zip (seq 0 (length res)) res) in
  candidates ← py_map (λ r, name ← dict_get st.(idx2label) (Z.of_nat r.1);
                            Ok (mk_candidate name r.2)) results;
  match candidates with
  | [] => Err IndexError
  | c :: _ => Ok (ODict words c candidates)
  end.

Section Predict.
Context (tokenize_sentence : list string → list Z).
(** The network's forward pass on one padded row ([model.predict] is
    row by row; the BERT segment input is all zeros). *)
Context (net : list Z → list spec_float).

(** The embedding's [tokenize] on either shape of argument (an external
    library; it maps over a list of sentences). *)
Definition tokenize_input (sentence : list py_elem) : result tokens :=
  match sentence with
  | [] => Ok (TokMany [])
  | EStr _ :: _ =>
      ws ← py_map (λ e, match e with EStr s => Ok s | ESent _ => Err TypeError end)
             sentence;
      Ok (TokOne (tokenize_sentence ws))
  | ESent _ :: _ =>
      ss ← py_map (λ e, match e with ESent ws => Ok ws | EStr _ => Err TypeError end)
             sentence;
      Ok (TokMany (map tokenize_sentence ss))
  end.

(** The words of each input sentence ([words_list]). *)
Definition words_of (sentence : list py_elem) (is_list : bool)
    : result (list (list string)) :=
  if is_list then
    py_map (λ e, match e with ESent ws => Ok ws | EStr _ => Err TypeError end)
      sentence
  else
    ws ← py_map (λ e, match e with EStr s => Ok s | ESent _ => Err TypeError end)
           sentence;
    Ok [ws].

Fixpoint py_map2 {A B C} (f : A → B → result C) (xs : list A) (ys : list B)
    : result (list C) :=
  match xs, ys with
  | x :: xs', y :: ys' => c ← f x y; cs ← py_map2 f xs' ys'; Ok (c :: cs)
  | [], _ => Ok []
  | _ :: _, [] => Err IndexError
  end.

(** [is_list = not isinstance(sentence[0], str)] *)
Definition is_list_arg (sentence : list py_elem) : result bool :=
  match sentence with
  | [] => Err IndexError
  | EStr _ :: _ => Ok false
  | ESent _ :: _ => Ok true
  end.

(** Lines 295-311: the per-sentence results. *)
Definition predict_results (st : clf) (sentence : list py_elem)
    (is_list output_dict : bool) (res : list (list spec_float))
    : result (list py_out) :=
  if output_dict then
    words_list ← words_of sentence is_list;
    py_map2 (format_output_dic st) words_list res
  else if st.(multi_label) then
    match st.(mlb_classes) with
    | Some cls =>
        (* [check_is_fitted] comes first in [inverse_transform] *)
        if st.(mlb_fitted) then py_map (inverse_transform_row cls) res
        else Err NotFittedError
    | None => Err AttributeError
    end
  else
    predict_result ← py_map argmax res;
    labels ← convert_idx_to_label st (IList predict_result);
    match labels with
    | LList ls => Ok (map OLabel ls)
    | LStr _ => Err TypeError
    end.

Definition predict (st : clf) (sentence : list py_elem) (output_dict : bool)
    (multi_label_threshold : spec_float) : result py_out :=
  toks ← tokenize_input sentence;
  is_list ← is_list_arg sentence;
  padded_tokens ←
    (match is_list, toks with
     | true, TokMany ts => pad_sequences st.(sequence_length) ts
     | false, TokOne t => pad_sequences st.(sequence_length) [t]
     | _, _ => Err TypeError
     end);
  let res := map net padded_tokens in
  (* [res] is thresholded in place in the multi-label case *)
  let res := if st.(multi_label) then map (threshold_row multi_label_threshold) res
             else res in
  results ← predict_results st sentence is_list output_dict res;
  match is_list with
  | true => Ok (OList results)
  | false => py_index results 0
  end.
End Predict.

(* ------------------------------------------------------------------ *)
(** ** [load_data_and_label] of the CNN script *)

(** [str.isspace()] on one character, a [string] character read as the
    code point 0-255 it encodes: tab to carriage return (9-13), the
    separators 28-31, space, NEL (133) and no-break space (160). *)
Definition is_py_space (c : Ascii.ascii) : bool :=
  let n := Ascii.nat_of_ascii c in
  ((9 <=? n)%nat && (n <=? 13)%nat) || ((28 <=? n)%nat && (n <=? 32)%nat) ||
  (n =? 133)%nat || (n =? 160)%nat.

Fixpoint drop_while {A} (p : A → bool) (l : list A) : list A :=
  match l with
  | [] => []
  | x :: l' => if p x then drop_while p l' else l
  end.

(** [str.strip()]. *)
Definition py_strip (s : string) : string :=
  let cs := String.list_ascii_of_string s in
  let cs := drop_while is_py_space cs in
  String.string_of_list_ascii (rev (drop_while is_py_space (rev cs))).

Definition py_join (sep : string) (ws : list string) : string :=
  match ws with
  | [] => EmptyString
  | w :: ws' => fold_left (λ acc w', acc +:+ sep +:+ w') ws' w
  end.

Section LoadData.
(** [jieba.cut] *)
Context (jieba_cut : string → list string).

Definition segment_line (line : string) : string :=
  py_join " " (jieba_cut (py_strip line)).

(** The files are given by their lines ([readlines()]). *)
Definition load_data_and_label (positive_lines negative_lines : list string)
    : list string * list Z :=
  let positive_texts := map segment_line positive_lines in
  let negative_texts := map segment_line negative_lines in
  let x_text := positive_texts ++ negative_texts in
  let positive_labels := map (λ _, 1) negative_texts in
  let negative_labels := map (λ _, 0) negative_texts in
  let y := positive_labels ++ negative_labels in
  (x_text, y).
End LoadData.

(* ------------------------------------------------------------------ *)
(** ** The [label2idx] setter and [load_model] *)

(** [self.label2idx = value] (lines 70-73): the index is replaced and
    [_idx2label] is rebuilt as [dict([(val, key) for (key, val) in
    value.items()])]; the binarizer is left alone. *)
Definition set_label2idx (st : clf) (value : pydict string Z) : clf :=
  mk_clf st.(multi_label) value
    (dict_of_pairs (map (λ kv, (kv.2, kv.1)) value))
    st.(mlb_classes) st.(sequence_length) st.(is_bert) st.(model_built)
    st.(mlb_fitted) st.(token2idx) st.(build_token2idx_dict).

Definition set_multi_label (st : clf) (b : bool) : clf :=
  mk_clf b st.(label2idx) st.(idx2label) st.(mlb_classes)
    st.(sequence_length) st.(is_bert) st.(model_built)
    st.(mlb_fitted) st.(token2idx) st.(build_token2idx_dict).

(** [MultiLabelBinarizer(classes=cls)] followed by [fit]: a fitted
    binarizer. *)
Definition set_binarizer (st : clf) (cls : list string) : clf :=
  mk_clf st.(multi_label) st.(label2idx) st.(idx2label) (Some cls)
    st.(sequence_length) st.(is_bert) st.(model_built)
    true st.(token2idx) st.(build_token2idx_dict).

(** [ClassificationModel.load_model] after the base class has restored
    the model ([agent], with its label index) and its [model_info]
    ([model_info_multi] is [model_info.get('multi_label')], [None] when
    the key is missing).  [MultiLabelBinarizer(classes=keys).fit(y)]
    takes its classes from [keys] and does not read [y]. *)
Definition load_model_labels (agent : clf) (model_info_multi : option bool)
    : result clf :=
  let multi := match model_info_multi with Some b => b | None => false end in
  let agent := set_multi_label agent multi in
  if multi then
    let keys := dict_keys agent.(label2idx) in
    _ ← py_index keys 0;
    Ok (set_binarizer agent keys)
  else Ok agent.

(* ------------------------------------------------------------------ *)
(** ** [evaluate] *)

(** [y_pred[index]] in the debug log: a list or tuple of results is
    indexed, a str gives a character, a dict has no int keys. *)
Definition py_out_index (v : py_out) (i : nat) : result unit :=
  match v with
  | OList rs => _ ← py_index rs (Z.of_nat i); Ok ()
  | OTuple ls => _ ← py_index ls (Z.of_nat i); Ok ()
  | OLabel s => _ ← py_index (String.list_ascii_of_string s) (Z.of_nat i); Ok ()
  | ODict _ _ _ => Err KeyError
  end.

Section Evaluate.
Context (tokenize_sentence : list string → list Z).
Context (net : list Z → list spec_float).
(** [print(metrics.classification_report(y_data, y_pred, digits=digits))] *)
Context (classification_report : list target → py_out → result unit).

(** [evaluate]; [sample] is [random.sample(list(range(len(x_data))), 5)]
    when the population has at least 5 elements (it raises ValueError
    otherwise). *)
Definition evaluate (st : clf) (x_data : list py_elem) (y_data : list target)
    (debug_info : bool) (sample : list nat) : result unit :=
  y_pred ← predict tokenize_sentence net st x_data false default_threshold;
  _ ← classification_report y_data y_pred;
  if debug_info then
    if decide (length x_data < 5)%nat then Err ValueError
    else
      py_map (λ index,
                _ ← py_index x_data (Z.of_nat index);
                _ ← py_index y_data (Z.of_nat index);
                py_out_index y_pred index) sample;;
      Ok ()
  else Ok ().
End Evaluate.

(* ------------------------------------------------------------------ *)
(** ** [load_glove_model] and [word_embedding] of the CNN script *)

(** The whitespace [str.split()] splits on: the characters of
    [str.isspace()]. *)
Definition is_split_space (c : Ascii.ascii) : bool := is_py_space c.

(** [str.split()]: the maximal runs of non-whitespace characters.
    [cur] is the word being read, reversed. *)
Fixpoint split_words (cur : list Ascii.ascii) (cs : list Ascii.ascii)
    : list string :=
  match cs with
  | [] => match cur with
          | [] => []
          | _ => [String.string_of_list_ascii (rev cur)]
          end
  | c :: cs' =>
      if is_split_space c then
        match cur with
        | [] => split_words [] cs'
        | _ => String.string_of_list_ascii (rev cur) :: split_words [] cs'
        end
      else split_words (c :: cur) cs'
  end.

Definition py_split (s : string) : list string :=
  split_words [] (String.list_ascii_of_string s).

Section Glove.
(** The vector entries ([np.asarray(..., dtype='float32')] parses each
    string, raising ValueError on a malformed one). *)
Context {R : Type} (parse_float : string → result R).

(** [load_glove_model] on the lines of the GloVe file. *)
Definition load_glove_model (lines : list string)
    : result (pydict string (list R)) :=
  fold_left (λ acc line,
      embeddings_index ← acc;
      let values := py_split line in
      word ← py_index values 0;
      coefs ← py_map parse_float (drop 1 values);
      Ok (dict_set embeddings_index word coefs))
    lines (Ok []).
End Glove.

Section WordEmbedding.
Context {R : Type} (zero : R).

(** [embedding_matrix[i] = embedding_vector] on a matrix of rows of
    length [dim]: a negative [i] counts from the end, an [i] out of range
    raises IndexError, and the vector broadcasts when it has [dim]
    entries or a single one (ValueError otherwise). *)
Definition set_matrix_row (dim : nat) (m : list (list R)) (i : Z) (v : list R)
    : result (list (list R)) :=
  let n := Z.of_nat (length m) in
  if decide (-n <= i < n) then
    let j := Z.to_nat (if decide (i < 0) then i + n else i) in
    if decide (length v = dim) then Ok (<[j := v]> m)
    else match v with
         | [x] => Ok (<[j := replicate dim x]> m)
         | _ => Err ValueError
         end
  else Err IndexError.

(** The embedding matrix [word_embedding] builds (the Keras layer it is
    wrapped in is external). *)
Definition word_embedding_matrix (embedding_dim : nat)
    (word_index : pydict string Z) (embeddings_index : pydict string (list R))
    : result (list (list R)) :=
  let num_words := (length word_index + 1)%nat in
  fold_left (λ acc wi,
      embedding_matrix ← acc;
      match dict_get embeddings_index wi.1 with
      | Ok embedding_vector =>
          set_matrix_row embedding_dim embedding_matrix wi.2 embedding_vector
      | Err _ => Ok embedding_matrix
      end)
    word_index (Ok (replicate num_words (replicate embedding_dim zero))).
End WordEmbedding.

(* ------------------------------------------------------------------ *)
(** ** Readings of the spec's words *)

(** The distinct labels in the order they are first seen. *)
Fixpoint first_seen_from (seen : list string) (ls : list string) : list string :=
  match ls with
  | [] => []
  | l :: ls' =>
      if decide (l ∈ seen) then first_seen_from seen ls'
      else l :: first_seen_from (l :: seen) ls'
  end.

Definition first_seen (ls : list string) : list string := first_seen_from [] ls.

(** [(label, id)] pairs numbering [ls] from [i]. *)
Fixpoint enum_from (i : Z) (ls : list string) : pydict string Z :=
  match ls with
  | [] => []
  | l :: ls' => (l, i) :: enum_from (i + 1) ls'
  end.

(** The contract of a label index [d] over the observed [labels]: total
    over them, one id per label, ids in [[0, num_labels)]. *)
Definition label_index_contract (labels : list string) (d : pydict string Z)
    : Prop :=
  NoDup (dict_keys d) ∧
  (∀ l, l ∈ labels ↔ ∃ i, dict_get d l = Ok i) ∧
  (∀ l i, dict_get d l = Ok i → 0 <= i < Z.of_nat (length (dict_keys d))) ∧
  (∀ l1 l2 i, dict_get d l1 = Ok i → dict_get d l2 = Ok i → l1 = l2).

(** The keys of [d] are [order], numbered from 0 in that order. *)
Definition ids_follow (order : list string) (d : pydict string Z) : Prop :=
  dict_keys d = order ∧
  ∀ n l, order !! n = Some l → dict_get d l = Ok (Z.of_nat n).

(** One admissible set iteration order: CPython iterates the two-element
    set [{"pos", "neg"}] in either order, depending on the hash seed. *)
Definition set_order_example : py_set_impl.
Proof.
  refine {| set_iter := λ l, reverse (remove_dups l) |}.
  - intros l. rewrite reverse_Permutation. apply NoDup_remove_dups.
  - intros l x. rewrite elem_of_reverse, elem_of_remove_dups. done.
Defined.

(** An embedding whose vocabulary is fixed (as BERT's is). *)
Definition vocab_fixed : vocab_builder := λ _ _ vocab, Ok vocab.

(** A fresh single-label model whose embedding has sequence length 3. *)
Definition st_example : clf :=
  mk_clf false [] [] None 3 false false false [] vocab_fixed.

Definition y_example : list target := [TStr "pos"; TStr "neg"].

Definition x_example : list (list string) := [["good"]; ["bad"]].

(** [st_example] after [build_token2id_label2id_dict] on the examples with
    [set_order_example]. *)
Definition st_built_example : clf :=
  mk_clf false [("neg", 0); ("pos", 1)] [(0, "neg"); (1, "pos")]
    (Some ["neg"; "pos"]) 3 false false false [] vocab_fixed.

(** Ten training examples, one validation example, and a sub-class whose
    [build_model] succeeds. *)
Definition x_ten : list (list string) := replicate 10 ["w"].
Definition y_ten : list target := replicate 10 (TStr "pos").
Definition build_model_ok : clf → result unit := λ _, Ok ().

(** A batch of [rows] examples whose token rows (and segment rows) have
    width [width]. *)
Definition batch_shape (rows width : nat) (bt : batch) : Prop :=
  batch_rows bt = rows ∧
  length bt.(batch_y) = rows ∧
  Forall (λ r, length r = width) (x_tokens bt.(batch_x)) ∧
  match bt.(batch_x) with
  | XPlain _ => True
  | XBert p seg => length seg = length p ∧ Forall (λ r, length r = width) seg
  end.

(** A target the generator can encode with the model's label index
    (multi-label targets need the binarizer's classes, see the hypotheses
    on [mlb_classes] below). *)
Definition target_encodable (st : clf) (t : target) : Prop :=
  if st.(multi_label) then True
  else ∃ s i, t = TStr s ∧ dict_get st.(label2idx) s = Ok i ∧
              0 <= i < Z.of_nat (length st.(label2idx)).

(** The shape of the batch built from page [p] of [n] examples: a full
    page before the last, on the last page the remainder [n mod b], or a
    full page when there is no remainder. *)
Definition page_batch_shape (n b width p : nat) (bt : batch) : Prop :=
  (p ≤ n / b)%nat ∧
  ((p < n / b)%nat → batch_shape b width bt) ∧
  (p = (n / b)%nat → (n mod b ≠ 0)%nat → batch_shape (n mod b) width bt) ∧
  (p = (n / b)%nat → (n mod b = 0)%nat → batch_shape b width bt).

(** A network scoring every input [0.2] for the first class and [0.8]
    for the second. *)
Definition net_example (row : list Z) : list spec_float :=
  [Prim2SF 0.2%float; Prim2SF 0.8%float].

(** A multi-label model over the classes [a], [b], [c] whose binarizer
    is fitted (as [load_model] leaves it), and a network scoring every
    input [0.7; 0.4; 0.61]. *)
Definition st_multi_example : clf :=
  mk_clf true [("a", 0); ("b", 1); ("c", 2)] [(0, "a"); (1, "b"); (2, "c")]
    (Some ["a"; "b"; "c"]) 3 false true true [] vocab_fixed.

Definition net_scores_example (row : list Z) : list spec_float :=
  [Prim2SF 0.7%float; Prim2SF 0.4%float; Prim2SF 0.61%float].

(** A tokenizer giving one id per token. *)
Definition tokenize_example (ws : list string) : list Z := map (λ _, 1) ws.

Definition x_three : list (list string) := [["a"]; ["b"]; ["c"]].
Definition y_three : list target := [TStr "pos"; TStr "neg"; TStr "pos"].

(** The model after [build_token2id_label2id_dict] on [x_three],
    [y_three] with the set order [set_order_example]. *)
Definition st_three : clf :=
  mk_clf false [("pos", 0); ("neg", 1)] [(0, "pos"); (1, "neg")]
    (Some ["pos"; "neg"]) 3 false false false [] vocab_fixed.

(** The label index read backwards ([idx2label]). *)
Definition swap_pairs (d : pydict string Z) : pydict Z string :=
  map (λ kv, (kv.2, kv.1)) d.

(** Computations that never replace the model state. *)
Definition no_put {A} (m : fitM A) : Prop := ∀ st, (m st).1.1 = st.

(** Computations whose events all satisfy [P]. *)
Definition emits_only (P : event → Prop) {A} (m : fitM A) : Prop :=
  ∀ st, Forall P (m st).1.2.

(** The batch sizes [fit] hands to the framework: both generators get [b],
    and [steps_per_epoch] is [n // b]. *)
Definition batch_size_in_trace (b n : nat) (ev : event) : Prop :=
  match ev with
  | EvTrainGenerator b' => b' = b
  | EvValidationGenerator b' => b' = b
  | EvFitGenerator steps _ _ => b ≠ 0%nat ∧ steps = (n / b)%nat
  end.

(** [fit]'s batch size after lines 186-187. *)
Definition fit_batch_size (n_train batch_size : nat) : nat :=
  if decide (n_train < batch_size)%nat then (n_train / 2)%nat else batch_size.

(** The keyword arguments [fit_generator] receives: the caller's
    [fit_kwargs] (or [{}]), with [validation_data] and [validation_steps]
    written over them when [x_validate] is non-empty. *)
Definition fit_kwargs_passed (fit_kwargs : option (pydict string kwarg))
    (x_validate : option (list (list string))) (b : nat) : pydict string kwarg :=
  let kw := match fit_kwargs with Some kw => kw | None => [] end in
  match x_validate with
  | Some (_ :: _ as xv) =>
      dict_set (dict_set kw "validation_data" (KwGenerator b))
        "validation_steps" (KwSteps ((length xv / b) `max` 1)%nat)
  | _ => kw
  end.

(** The events of a [fit] call that raises nothing, for [n_train]
    training examples and batch size [b]: the training generator, the
    validation generator when [x_validate] is non-empty, and
    [fit_generator] with [steps_per_epoch = n_train // b]. *)
Definition fit_trace (n_train : nat) (x_validate : option (list (list string)))
    (b epochs : nat) (fit_kwargs : option (pydict string kwarg)) : list event :=
  EvTrainGenerator b ::
  (match x_validate with
   | Some (_ :: _) => [EvValidationGenerator b]
   | _ => []
   end) ++
  [EvFitGenerator (n_train / b) epochs (fit_kwargs_passed fit_kwargs x_validate b)].

(* ================================================================== *)
(** * Proofs *)

(** ** Dicts *)

Lemma dict_get_app_l {K V} `{EqDecision K} (d1 d2 : pydict K V) k v :
  dict_get d1 k = Ok v → dict_get (d1 ++ d2) k = Ok v.
Proof.
  induction d1 as [|[k' v'] d1 IH]; simpl; [discriminate|].
  case_decide; auto.
Qed.

Lemma dict_get_app_r {K V} `{EqDecision K} (d1 d2 : pydict K V) k :
  k ∉ dict_keys d1 → dict_get (d1 ++ d2) k = dict_get d2 k.
Proof.
  induction d1 as [|[k' v'] d1 IH]; simpl; [done|].
  rewrite not_elem_of_cons. intros [Hne Hk]. case_decide; [congruence|auto].
Qed.

Lemma dict_get_missing {K V} `{EqDecision K} (d : pydict K V) k :
  k ∉ dict_keys d → dict_get d k = Err KeyError.
Proof.
  induction d as [|[k' v'] d IH]; simpl; [done|].
  rewrite not_elem_of_cons. intros [Hne Hk]. case_decide; [congruence|auto].
Qed.

Lemma dict_get_Ok_keys {K V} `{EqDecision K} (d : pydict K V) k v :
  dict_get d k = Ok v → k ∈ dict_keys d.
Proof.
  induction d as [|[k' v'] d IH]; simpl; [discriminate|].
  case_decide; subst; intros; [left|right; auto].
Qed.

Lemma dict_set_fresh {K V} `{EqDecision K} (d : pydict K V) k v :
  k ∉ dict_keys d → dict_set d k v = d ++ [(k, v)].
Proof.
  induction d as [|[k' v'] d IH]; simpl; [done|].
  rewrite not_elem_of_cons. intros [Hne Hk]. case_decide; [congruence|].
  by rewrite IH.
Qed.

Lemma dict_keys_app {K V} (d1 d2 : pydict K V) :
  dict_keys (d1 ++ d2) = dict_keys d1 ++ dict_keys d2.
Proof. apply map_app. Qed.

Lemma fold_dict_set_fresh {K V} `{EqDecision K} (ps d : pydict K V) :
  NoDup (dict_keys (d ++ ps)) →
  fold_left (λ d kv, dict_set d kv.1 kv.2) ps d = d ++ ps.
Proof.
  revert d. induction ps as [|[k v] ps IH]; intros d Hnd; simpl.
  - by rewrite app_nil_r.
  - rewrite dict_keys_app in Hnd. simpl in Hnd.
    apply NoDup_app in Hnd as (Hd & Hdis & Hps).
    apply NoDup_cons in Hps as [Hk Hps].
    rewrite dict_set_fresh.
    2:{ intros Hin. apply (Hdis k Hin). left. }
    rewrite IH; [by rewrite <-app_assoc|].
    rewrite !dict_keys_app. simpl. apply NoDup_app. split_and!.
    + apply NoDup_app. split_and!; [done| |apply NoDup_singleton].
      intros x Hx Hx'. apply list_elem_of_singleton in Hx'. subst.
      apply (Hdis k Hx). left.
    + intros x Hx Hx'. apply elem_of_app in Hx as [Hx|Hx].
      * apply (Hdis x Hx). by right.
      * apply list_elem_of_singleton in Hx. subst. done.
    + done.
Qed.

(** ** The label index built by [build_token2id_label2id_dict] *)

Lemma dict_keys_enum_from i ls : dict_keys (enum_from i ls) = ls.
Proof. revert i. induction ls; intros i; simpl; f_equal; auto. Qed.

Lemma enumerate_into_fresh d i ls :
  NoDup (dict_keys d ++ ls) → enumerate_into d i ls = d ++ enum_from i ls.
Proof.
  revert d i. induction ls as [|l ls IH]; intros d i Hnd; simpl.
  - by rewrite app_nil_r.
  - apply NoDup_app in Hnd as (Hd & Hdis & Hls).
    apply NoDup_cons in Hls as [Hl Hls].
    rewrite dict_set_fresh.
    2:{ intros Hin. apply (Hdis l Hin). left. }
    rewrite IH; [by rewrite <-app_assoc|].
    rewrite dict_keys_app. simpl. rewrite <-app_assoc. simpl.
    apply NoDup_app. split_and!; [done| |by apply NoDup_cons].
    intros x Hx. apply Hdis, Hx.
Qed.

Lemma enum_from_lookup i ls n l :
  NoDup ls → ls !! n = Some l → dict_get (enum_from i ls) l = Ok (i + Z.of_nat n).
Proof.
  revert i n. induction ls as [|l0 ls IH]; intros i n Hnd Hn; [done|].
  apply NoDup_cons in Hnd as [Hl0 Hnd]. simpl.
  destruct n as [|n]; simpl in Hn.
  - injection Hn as ->. case_decide; [f_equal; lia|congruence].
  - case_decide as Heq.
    + subst. exfalso. apply Hl0. by eapply list_elem_of_lookup_2.
    + rewrite (IH (i + 1) n Hnd Hn). f_equal. lia.
Qed.

Lemma enum_from_get_inv i ls l v :
  dict_get (enum_from i ls) l = Ok v →
  ∃ n, ls !! n = Some l ∧ v = i + Z.of_nat n.
Proof.
  revert i. induction ls as [|l0 ls IH]; intros i; simpl; [discriminate|].
  case_decide as Heq.
  - intros [= <-]. exists 0%nat. subst. split; [done|lia].
  - intros H. destruct (IH (i + 1) H) as (n & Hn & ->).
    exists (S n). split; [done|lia].
Qed.

Lemma swap_enum_keys i ls :
  NoDup (dict_keys (swap_pairs (enum_from i ls))) ∧
  ∀ j, j ∈ dict_keys (swap_pairs (enum_from i ls)) → i <= j.
Proof.
  revert i. induction ls as [|l ls IH]; intros i; simpl.
  - split; [constructor|]. intros j Hj. by apply not_elem_of_nil in Hj.
  - destruct (IH (i + 1)) as [Hnd Hge]. split.
    + apply NoDup_cons. split; [|done]. intros Hin. apply Hge in Hin. lia.
    + intros j Hj. apply elem_of_cons in Hj as [->|Hj]; [lia|].
      apply Hge in Hj. lia.
Qed.

Lemma swap_enum_lookup i ls n l :
  ls !! n = Some l →
  dict_get (swap_pairs (enum_from i ls)) (i + Z.of_nat n) = Ok l.
Proof.
  revert i n. induction ls as [|l0 ls IH]; intros i n Hn; [done|]. simpl.
  destruct n as [|n]; simpl in Hn.
  - injection Hn as ->. case_decide; [done|lia].
  - case_decide; [lia|].
    replace (i + Z.of_nat (S n)) with (i + 1 + Z.of_nat n) by lia. auto.
Qed.

Lemma idx2label_of_enum i ls :
  dict_of_pairs (swap_pairs (enum_from i ls)) = swap_pairs (enum_from i ls).
Proof.
  unfold dict_of_pairs. rewrite fold_dict_set_fresh; [done|].
  apply (swap_enum_keys i ls).
Qed.

Lemma build_label_index_shape S st x y xv yv st' :
  build_token2id_label2id_dict S st x y xv yv = (st', Ok ()) →
  ∃ ys labels,
    join_targets y xv yv = Ok ys ∧
    observed_labels st.(multi_label) ys = Ok labels ∧
    ∃ vocab,
      st.(build_token2idx_dict) (join_inputs x xv) 3%nat st.(token2idx) = Ok vocab ∧
      st' = mk_clf st.(multi_label) (enum_from 0 (S.(set_iter) labels))
              (swap_pairs (enum_from 0 (S.(set_iter) labels)))
              (Some (S.(set_iter) labels))
              st.(sequence_length) st.(is_bert) st.(model_built)
              false vocab st.(build_token2idx_dict).
Proof.
  unfold build_token2id_label2id_dict.
  destruct (join_targets y xv yv) as [ys|e] eqn:Hj; [|discriminate].
  destruct (build_token2idx_dict st _ _ _) as [vocab|e] eqn:Hv; [|discriminate].
  destruct (observed_labels _ ys) as [labels|e] eqn:Ho; [|discriminate].
  intros [= <-]. exists ys, labels. split_and!; [done|done|]. exists vocab.
  split; [done|].
  rewrite enumerate_into_fresh; [|apply set_iter_NoDup]. simpl.
  unfold set_label_index. rewrite dict_keys_enum_from.
  fold (swap_pairs (enum_from 0 (set_iter S labels))).
  by rewrite idx2label_of_enum.
Qed.

Lemma build_label_index_facts S st x y xv yv st' ys labels :
  build_token2id_label2id_dict S st x y xv yv = (st', Ok ()) →
  join_targets y xv yv = Ok ys →
  observed_labels st.(multi_label) ys = Ok labels →
  label_index_contract labels st'.(label2idx) ∧
  ids_follow (S.(set_iter) labels) st'.(label2idx).
Proof.
  intros Hb Hj Ho.
  destruct (build_label_index_shape S st x y xv yv st' Hb)
    as (ys' & labels' & Hj' & Ho' & ? & _ & ->).
  rewrite Hj in Hj'. injection Hj' as <-. rewrite Ho in Ho'. injection Ho' as <-.
  simpl. pose proof (set_iter_NoDup S labels) as Hnd.
  set (L := set_iter S labels) in *.
  assert (Hinv : ∀ l i, dict_get (enum_from 0 L) l = Ok i →
                 L !! Z.to_nat i = Some l ∧ 0 <= i < Z.of_nat (length L)).
  { intros l i Hg. destruct (enum_from_get_inv 0 L l i Hg) as (n & Hn & ->).
    rewrite Z.add_0_l, Nat2Z.id. split; [done|].
    apply lookup_lt_Some in Hn. lia. }
  unfold label_index_contract, ids_follow. rewrite dict_keys_enum_from. split_and!.
  - done.
  - intros l. split.
    + intros Hl. apply (set_iter_elem S) in Hl.
      apply list_elem_of_lookup_1 in Hl as [n Hn].
      eexists. by apply enum_from_lookup.
    + intros [i Hi]. apply dict_get_Ok_keys in Hi.
      rewrite dict_keys_enum_from in Hi. by apply (set_iter_elem S).
  - intros l i Hi. apply (Hinv l i Hi).
  - intros l1 l2 i H1 H2.
    destruct (Hinv _ _ H1) as [H1' _]. destruct (Hinv _ _ H2) as [H2' _].
    congruence.
  - done.
  - intros n l Hn. rewrite (enum_from_lookup 0 L n l Hnd Hn). f_equal.
Qed.

(** C2: after [build_token2id_label2id_dict], [label2idx] has one entry
    for each distinct observed label (the training targets, and the
    validation targets when [x_validate] is non-empty), the ids are
    distinct and lie in [0, number of labels), and the ids number the
    labels in the iteration order of the Python set of labels. *)
Theorem label_index_total_unique_in_set_order S st x y xv yv st' ys labels :
  build_token2id_label2id_dict S st x y xv yv = (st', Ok ()) →
  join_targets y xv yv = Ok ys →
  observed_labels st.(multi_label) ys = Ok labels →
  label_index_contract labels st'.(label2idx) ∧
  ids_follow (S.(set_iter) labels) st'.(label2idx).
Proof. apply build_label_index_facts. Qed.

Lemma label_index_total_unique_in_set_order_witness :
  build_token2id_label2id_dict set_order_example st_example x_example y_example
    None None = (st_built_example, Ok ()) ∧
  label_index_contract ["pos"; "neg"] st_built_example.(label2idx) ∧
  ids_follow (set_order_example.(set_iter) ["pos"; "neg"])
    st_built_example.(label2idx).
Proof.
  split; [vm_compute; reflexivity|].
  apply (label_index_total_unique_in_set_order set_order_example st_example
           x_example y_example None None st_built_example y_example
           ["pos"; "neg"]); vm_compute; reflexivity.
Defined.

(** C2 (counterexample): the ids do not follow the order in which the
    labels are first seen:
    on the targets [["pos"; "neg"]], with a set that iterates as
    [{"neg", "pos"}], "pos" gets id 1. *)
Lemma label_ids_not_first_seen_order :
  ¬ (∀ S st x y xv yv st' ys labels,
       build_token2id_label2id_dict S st x y xv yv = (st', Ok ()) →
       join_targets y xv yv = Ok ys →
       observed_labels st.(multi_label) ys = Ok labels →
       label_index_contract labels st'.(label2idx) ∧
       ids_follow (first_seen labels) st'.(label2idx)).
Proof.
  intros H.
  destruct (H set_order_example st_example x_example y_example None None
              st_built_example y_example ["pos"; "neg"]) as [_ [Hkeys _]];
    [vm_compute; reflexivity ..|].
  vm_compute in Hkeys. discriminate.
Qed.

(** C8: after [build_token2id_label2id_dict], every observed label goes
    through [convert_label_to_idx] and then [convert_idx_to_label] back to
    itself. *)
Theorem label_id_roundtrip S st x y xv yv st' ys labels l :
  build_token2id_label2id_dict S st x y xv yv = (st', Ok ()) →
  join_targets y xv yv = Ok ys →
  observed_labels st.(multi_label) ys = Ok labels →
  l ∈ labels →
  (convert_label_to_idx st' (LStr l) ≫= convert_idx_to_label st') = Ok (LStr l).
Proof.
  intros Hb Hj Ho Hl.
  destruct (build_label_index_shape S st x y xv yv st' Hb)
    as (ys' & labels' & Hj' & Ho' & ? & _ & ->).
  rewrite Hj in Hj'. injection Hj' as <-. rewrite Ho in Ho'. injection Ho' as <-.
  apply (set_iter_elem S) in Hl. apply list_elem_of_lookup_1 in Hl as [n Hn].
  pose proof (enum_from_lookup 0 _ n l (set_iter_NoDup S labels) Hn) as H1.
  pose proof (swap_enum_lookup 0 _ n l Hn) as H2.
  unfold convert_label_to_idx, convert_idx_to_label. simpl.
  rewrite H1. simpl. rewrite H2. reflexivity.
Qed.

Lemma label_id_roundtrip_witness :
  (convert_label_to_idx st_built_example (LStr "pos")
     ≫= convert_idx_to_label st_built_example) = Ok (LStr "pos").
Proof.
  apply (label_id_roundtrip set_order_example st_example x_example y_example
           None None st_built_example y_example ["pos"; "neg"] "pos");
    [vm_compute; reflexivity .. | constructor].
Defined.

(** ** Missing keys *)

Lemma dict_get_Err {K V} `{EqDecision K} (d : pydict K V) k e :
  dict_get d k = Err e → e = KeyError.
Proof.
  induction d as [|[k' v'] d IH]; simpl; [congruence|].
  case_decide; [discriminate|auto].
Qed.

Lemma py_map_lookup_missing {K V} `{EqDecision K} (d : pydict K V) (ks : list K) :
  (∃ k, k ∈ ks ∧ k ∉ dict_keys d) → py_map (dict_get d) ks = Err KeyError.
Proof.
  intros (k & Hk & Hmiss). induction ks as [|k' ks IH]; simpl.
  - by apply not_elem_of_nil in Hk.
  - apply elem_of_cons in Hk as [->|Hk].
    + by rewrite dict_get_missing.
    + destruct (dict_get d k') as [v|e] eqn:Hg; simpl.
      * by rewrite IH.
      * f_equal. eapply dict_get_Err, Hg.
Qed.

(** C9: a label missing from [label2idx] (alone or inside a list) and an
    id missing from [idx2label] (alone or inside a list) make the
    converters raise [KeyError]; no default is returned. *)
Theorem unseen_label_or_id_KeyError (st : clf) :
  (∀ l, l ∉ dict_keys st.(label2idx) →
     convert_label_to_idx st (LStr l) = Err KeyError) ∧
  (∀ ls, (∃ l, l ∈ ls ∧ l ∉ dict_keys st.(label2idx)) →
     convert_label_to_idx st (LList ls) = Err KeyError) ∧
  (∀ i, i ∉ dict_keys st.(idx2label) →
     convert_idx_to_label st (IInt i) = Err KeyError) ∧
  (∀ is, (∃ i, i ∈ is ∧ i ∉ dict_keys st.(idx2label)) →
     convert_idx_to_label st (IList is) = Err KeyError).
Proof.
  unfold convert_label_to_idx, convert_idx_to_label. split_and!.
  - intros l Hl. by rewrite dict_get_missing.
  - intros ls Hls. by rewrite py_map_lookup_missing.
  - intros i Hi. by rewrite dict_get_missing.
  - intros is His. by rewrite py_map_lookup_missing.
Qed.

(** ** [load_data_and_label] *)

(** C10: [load_data_and_label] builds both the ones and the zeros of [y]
    from the negative lines, so [y] has twice as many entries as there are
    negative lines, while [x_text] has one entry per line of both files;
    when the files have different numbers of lines the lengths differ. *)
Theorem load_data_and_label_misaligned jieba_cut
    (positive_lines negative_lines : list string) :
  let '(x_text, y) := load_data_and_label jieba_cut positive_lines negative_lines in
  y = replicate (length negative_lines) 1 ++ replicate (length negative_lines) 0 ∧
  length y = (2 * length negative_lines)%nat ∧
  length x_text = (length positive_lines + length negative_lines)%nat ∧
  (length positive_lines ≠ length negative_lines → length x_text ≠ length y).
Proof.
  unfold load_data_and_label. simpl.
  assert (Hrep : ∀ (c : Z) (l : list string),
            map (λ _, c) l = replicate (length l) c).
  { intros c l. induction l; simpl; congruence. }
  rewrite !Hrep, !length_map, !length_app, !length_map, !length_replicate.
  split_and!; [done|lia|done|lia].
Qed.

(** ** [fit] *)

Lemma fitM_bind_unfold {A B} (m : fitM A) (f : A → fitM B) st :
  (m ≫= f) st =
  match m st with
  | (st1, ev1, Ok a) => let '(st2, ev2, r) := f a st1 in (st2, ev1 ++ ev2, r)
  | (st1, ev1, Err e) => (st1, ev1, Err e)
  end.
Proof. reflexivity. Qed.

Section FitM_rules.
Context {A B : Type}.

Lemma no_put_ret (a : A) : no_put (mret a).
Proof. intros st. reflexivity. Qed.
Lemma no_put_get : no_put get_st.
Proof. intros st. reflexivity. Qed.
Lemma no_put_lift (r : result A) : no_put (lift r).
Proof. intros st. reflexivity. Qed.
Lemma no_put_emit ev : no_put (emit ev).
Proof. intros st. reflexivity. Qed.
Lemma no_put_bind (m : fitM A) (f : A → fitM B) :
  no_put m → (∀ a, no_put (f a)) → no_put (m ≫= f).
Proof.
  intros Hm Hf st. rewrite fitM_bind_unfold.
  specialize (Hm st). destruct (m st) as [[st1 ev1] [a|e]]; simpl in *; [|done].
  specialize (Hf a st1). destruct (f a st1) as [[st2 ev2] r]. simpl in *. congruence.
Qed.

(** The final state of [m ≫= f] is the one [m] leaves when [f] never
    replaces it, also when [m] or [f] raises. *)
Lemma bind_no_put_state (m : fitM A) (f : A → fitM B) st :
  (∀ a, no_put (f a)) → ((m ≫= f) st).1.1 = (m st).1.1.
Proof.
  intros Hf. rewrite fitM_bind_unfold.
  destruct (m st) as [[st1 ev1] [a|e]]; simpl; [|done].
  specialize (Hf a st1). destruct (f a st1) as [[st2 ev2] r]. simpl in *. done.
Qed.

Lemma emits_only_ret P (a : A) : emits_only P (mret a).
Proof. intros st. constructor. Qed.
Lemma emits_only_get P : emits_only P get_st.
Proof. intros st. constructor. Qed.
Lemma emits_only_put P st' : emits_only P (put_st st').
Proof. intros st. constructor. Qed.
Lemma emits_only_lift P (r : result A) : emits_only P (lift r).
Proof. intros st. constructor. Qed.
Lemma emits_only_emit (P : event → Prop) ev : P ev → emits_only P (emit ev).
Proof. intros H st. by constructor. Qed.
Lemma emits_only_bind P (m : fitM A) (f : A → fitM B) :
  emits_only P m → (∀ a, emits_only P (f a)) → emits_only P (m ≫= f).
Proof.
  intros Hm Hf st. rewrite fitM_bind_unfold.
  specialize (Hm st). destruct (m st) as [[st1 ev1] [a|e]]; simpl in *; [|done].
  specialize (Hf a st1). destruct (f a st1) as [[st2 ev2] r]. simpl in *.
  by apply Forall_app.
Qed.
Lemma emits_only_lift_bind P (r : result A) (f : A → fitM B) :
  (∀ a, r = Ok a → emits_only P (f a)) → emits_only P (lift r ≫= f).
Proof.
  intros Hf st. rewrite fitM_bind_unfold. unfold lift.
  destruct r as [a|e]; simpl; [|constructor].
  specialize (Hf a eq_refl st). destruct (f a st) as [[st2 ev2] r]. done.
Qed.
End FitM_rules.

Ltac fitM_step :=
  match goal with
  | |- no_put (_ ≫= _) => apply no_put_bind; [|intros ?]
  | |- no_put (mret _) => apply no_put_ret
  | |- no_put get_st => apply no_put_get
  | |- no_put (lift _) => apply no_put_lift
  | |- no_put (emit _) => apply no_put_emit
  | |- emits_only _ (lift _ ≫= _) =>
      apply emits_only_lift_bind; let a := fresh "a" in let H := fresh "H" in
      intros a H
  | |- emits_only _ (_ ≫= _) => apply emits_only_bind; [|intros ?]
  | |- emits_only _ (mret _) => apply emits_only_ret
  | |- emits_only _ get_st => apply emits_only_get
  | |- emits_only _ (put_st _) => apply emits_only_put
  | |- emits_only _ (lift _) => apply emits_only_lift
  | |- emits_only _ (emit _) => apply emits_only_emit
  | |- _ (if ?b then _ else _) => destruct b
  | |- _ (match ?x with _ => _ end) => destruct x
  end.

Lemma ensure_model_emits_nothing build_model x P :
  emits_only P (ensure_model build_model x).
Proof. unfold ensure_model. repeat fitM_step. Qed.

Lemma py_floordiv_Ok a b q : py_floordiv a b = Ok q → b ≠ 0%nat ∧ q = (a / b)%nat.
Proof. unfold py_floordiv. case_decide; [discriminate|]. by intros [= <-]. Qed.

(** C3: when the batch size exceeds the number [N] of training examples,
    [fit] gives both generators the batch size [N // 2] and computes
    [steps_per_epoch] as [N // (N // 2)]; with [N = 10] and batch size 64
    the batch size is 5 (see the witness). *)
Theorem fit_reduces_batch_size S build_model x y xv yv bs epochs cw kw st :
  (length x < bs)%nat →
  Forall (batch_size_in_trace (length x / 2) (length x))
    (fit S build_model x y xv yv bs epochs cw kw st).1.2.
Proof.
  intros Hlt. revert st.
  change (emits_only (batch_size_in_trace (length x / 2) (length x))
            (fit S build_model x y xv yv bs epochs cw kw)).
  unfold fit. rewrite (decide_True _ _ Hlt). cbv zeta.
  repeat first [ apply ensure_model_emits_nothing | fitM_step ];
    simpl; try done.
  all: match goal with
       | H : py_floordiv _ _ = Ok _ |- _ => apply py_floordiv_Ok in H; tauto
       end.
Qed.

Lemma fit_reduces_batch_size_witness :
  (10 < 64)%nat ∧
  Forall (batch_size_in_trace (length x_ten / 2) (length x_ten))
    (fit set_order_example build_model_ok x_ten y_ten (Some [["v"]])
       (Some [TStr "neg"]) 64 5 false None st_example).1.2 ∧
  (fit set_order_example build_model_ok x_ten y_ten (Some [["v"]])
     (Some [TStr "neg"]) 64 5 false None st_example).1.2
  = [EvTrainGenerator 5; EvValidationGenerator 5; EvFitGenerator 2 5 [("validation_data", KwGenerator 5); ("validation_steps", KwSteps 1)]].
Proof.
  split_and!.
  - lia.
  - apply (fit_reduces_batch_size set_order_example build_model_ok x_ten y_ten
             (Some [["v"]]) (Some [TStr "neg"]) 64 5 false None st_example).
    vm_compute. lia.
  - vm_compute. reflexivity.
Defined.

Lemma state_lift_bind {A B} (r : result A) a (f : A → fitM B) st :
  r = Ok a → ((lift r ≫= f) st).1.1 = (f a st).1.1.
Proof.
  intros ->. rewrite fitM_bind_unfold. simpl.
  destruct (f a st) as [[st2 ev2] r]. done.
Qed.

Lemma state_get_bind {B} (f : clf → fitM B) st :
  ((get_st ≫= f) st).1.1 = (f st st).1.1.
Proof.
  rewrite fitM_bind_unfold. simpl. destruct (f st st) as [[st2 ev2] r]. done.
Qed.

Lemma state_put_bind {B} st' (f : () → fitM B) st :
  ((put_st st' ≫= f) st).1.1 = (f () st').1.1.
Proof.
  rewrite fitM_bind_unfold. simpl. destruct (f () st') as [[st2 ev2] r]. done.
Qed.

(** After the label index is built, the state [fit] leaves is the one
    [ensure_model] leaves: the rest of [fit] only reads it. *)
Lemma fit_final_state S build_model x y xv yv bs epochs cw kw st st1 :
  length x = length y →
  build_token2id_label2id_dict S st x y xv yv = (st1, Ok ()) →
  (fit S build_model x y xv yv bs epochs cw kw st).1.1
  = (ensure_model build_model x st1).1.1.
Proof.
  intros Hlen Hb. unfold fit.
  rewrite (state_lift_bind _ ()); [|by rewrite decide_True].
  rewrite state_get_bind, Hb, state_put_bind, (state_lift_bind _ () _ _ eq_refl).
  cbv zeta. apply bind_no_put_state. intros _.
  repeat fitM_step.
Qed.

Lemma ensure_model_built build_model x st :
  st.(model_built) = true → (ensure_model build_model x st).1.1 = st.
Proof. intros H. unfold ensure_model. rewrite state_get_bind, H. done. Qed.

Lemma ensure_model_hook_state (build_model : clf → result unit) st :
  ((get_st ≫= λ st, _ ← lift (build_model st); put_st (set_built st)) st).1.1
    .(sequence_length) = st.(sequence_length).
Proof.
  rewrite state_get_bind. cbv beta. destruct (build_model st) as [[]|e] eqn:Hm.
  - by rewrite (state_lift_bind _ () _ _ eq_refl).
  - by rewrite fitM_bind_unfold.
Qed.

Lemma ensure_model_configured build_model x st :
  st.(model_built) = false → st.(sequence_length) ≠ 0%nat →
  (ensure_model build_model x st).1.1.(sequence_length) = st.(sequence_length).
Proof.
  intros Hb Hs. unfold ensure_model. rewrite state_get_bind, Hb.
  rewrite (decide_False _ _ Hs).
  rewrite fitM_bind_unfold. simpl.
  pose proof (ensure_model_hook_state build_model st) as H.
  destruct ((get_st ≫= _) st) as [[st2 ev2] r]. done.
Qed.

Lemma ensure_model_infers build_model x st v :
  st.(model_built) = false → st.(sequence_length) = 0%nat →
  (percentile_index (length x) ≫= py_index (merge_sort (≤)%nat (map length x)))
    = Ok v →
  (ensure_model build_model x st).1.1.(sequence_length) = v.
Proof.
  intros Hb Hs Hv. unfold ensure_model. rewrite state_get_bind, Hb.
  rewrite (decide_True _ _ Hs).
  destruct (percentile_index (length x)) as [idx|e]; [|discriminate].
  simpl in Hv. cbv [mbind fitM_bind lift put_st get_st]. rewrite Hv.
  cbv [mbind fitM_bind lift put_st get_st].
  destruct (build_model (set_sequence_length st v)); reflexivity.
Qed.

(** C7: when no model is built and the sequence length is 0, [fit] sets
    the sequence length to the element at index [int(0.95 * N)] of the
    sorted lengths of the [N] training inputs (whenever that element
    exists); when the model is built or the sequence length is set, the
    sequence length is kept.  The sort is the sorted permutation of the
    lengths. *)
Theorem fit_infers_sequence_length S build_model x y xv yv bs epochs cw kw st st1 :
  length x = length y →
  build_token2id_label2id_dict S st x y xv yv = (st1, Ok ()) →
  let st' := (fit S build_model x y xv yv bs epochs cw kw st).1.1 in
  (st.(model_built) = false → st.(sequence_length) = 0%nat →
   ∀ v, (percentile_index (length x)
           ≫= py_index (merge_sort (≤)%nat (map length x))) = Ok v →
        st'.(sequence_length) = v) ∧
  (st.(model_built) = true ∨ st.(sequence_length) ≠ 0%nat →
   st'.(sequence_length) = st.(sequence_length)) ∧
  Sorted (≤)%nat (merge_sort (≤)%nat (map length x)) ∧
  merge_sort (≤)%nat (map length x) ≡ₚ map length x.
Proof.
  intros Hlen Hb st'. subst st'.
  rewrite (fit_final_state S build_model x y xv yv bs epochs cw kw st st1 Hlen Hb).
  destruct (build_label_index_shape S st x y xv yv st1 Hb) as (? & ? & _ & _ & ? & _ & ->).
  split_and!.
  - intros Hm Hs v Hv. by apply ensure_model_infers.
  - intros [Hm|Hs].
    + rewrite ensure_model_built; simpl; auto.
    + destruct (model_built st) eqn:Hm.
      * rewrite ensure_model_built; simpl; auto.
      * rewrite ensure_model_configured; simpl; auto.
  - apply Sorted_merge_sort. intros a b. lia.
  - apply merge_sort_Permutation.
Qed.

Lemma fit_infers_sequence_length_witness :
  (fit set_order_example build_model_ok x_ten y_ten None None 64 5 false None
     (mk_clf false [] [] None 0 false false false [] vocab_fixed)).1.1.(sequence_length) = 1%nat.
Proof.
  apply (fit_infers_sequence_length set_order_example build_model_ok x_ten y_ten
           None None 64 5 false None (mk_clf false [] [] None 0 false false false [] vocab_fixed)
           (mk_clf false [("pos", 0)] [(0, "pos")] (Some ["pos"]) 0 false false false [] vocab_fixed));
    [vm_compute; reflexivity .. | reflexivity | reflexivity | vm_compute; reflexivity].
Defined.

(** ** [get_data_generator] *)

Lemma in_list_head {A} (x : A) xs : x ∈ x :: xs.
Proof. apply elem_of_cons. by left. Qed.

Lemma py_map_Ok_elem {A B} (f : A → result B) xs ys :
  py_map f xs = Ok ys → ∀ x, x ∈ xs → ∃ y, f x = Ok y ∧ y ∈ ys.
Proof.
  revert ys. induction xs as [|x0 xs IH]; intros ys Hm x Hx.
  - by apply not_elem_of_nil in Hx.
  - simpl in Hm. destruct (f x0) as [y0|e] eqn:Hf; [|discriminate]. simpl in Hm.
    destruct (py_map f xs) as [ys'|e] eqn:Hr; [|discriminate].
    simpl in Hm. injection Hm as <-.
    apply elem_of_cons in Hx as [->|Hx].
    + exists y0. split; [done|left].
    + destruct (IH ys' eq_refl x Hx) as (y & Hy & Hin).
      exists y. split; [done|by right].
Qed.

Lemma py_map_all_Ok {A B} (f : A → result B) (P : B → Prop) xs :
  (∀ x, x ∈ xs → ∃ y, f x = Ok y ∧ P y) →
  ∃ ys, py_map f xs = Ok ys ∧ Forall P ys ∧ length ys = length xs.
Proof.
  induction xs as [|x xs IH]; intros H.
  - exists []. simpl. split_and!; [done|constructor|done].
  - destruct (H x (in_list_head x xs)) as (y & Hy & Py).
    destruct IH as (ys & Hys & Hall & Hlen).
    { intros x' Hx'. apply H. by right. }
    exists (y :: ys). simpl. rewrite Hy. simpl. rewrite Hys. simpl.
    split_and!; [done|by constructor|by f_equal].
Qed.

Lemma pad_row_width maxlen s :
  (0 < maxlen)%nat → ∃ r, pad_row maxlen s = Ok r ∧ length r = maxlen.
Proof.
  intros Hpos. destruct s as [|z s'].
  - eexists. split; [reflexivity|]. apply length_replicate.
  - unfold pad_row. destruct (decide (maxlen = 0%nat)) as [|_]; [lia|].
    destruct (decide (length (drop (length (z :: s') - maxlen) (z :: s')) ≤ maxlen)%nat)
      as [Hle|Hgt].
    + eexists. split; [reflexivity|].
      rewrite length_app, length_replicate. lia.
    + exfalso. apply Hgt. rewrite length_drop. lia.
Qed.

Lemma pad_sequences_width maxlen seqs :
  (0 < maxlen)%nat →
  ∃ rows, pad_sequences maxlen seqs = Ok rows ∧
          Forall (λ r, length r = maxlen) rows ∧ length rows = length seqs.
Proof.
  intros Hpos. apply py_map_all_Ok. intros s _. by apply pad_row_width.
Qed.

Lemma one_hot_in_range n i :
  0 <= i < Z.of_nat n → ∃ r, one_hot n i = Ok r.
Proof.
  intros Hi. unfold one_hot. rewrite decide_True by lia. by eexists.
Qed.

Lemma to_categorical_classes n ids :
  n ≠ 0%nat → to_categorical n ids = py_map (one_hot n) ids.
Proof. intros Hn. unfold to_categorical. by rewrite decide_False. Qed.

(** [make_batch] succeeds on encodable targets and keeps the shape. *)
Lemma make_batch_shape tok st tx ty bert :
  (0 < st.(sequence_length))%nat →
  length tx = length ty → ty ≠ [] →
  st.(mlb_classes) ≠ None →
  (∀ t, t ∈ ty → target_encodable st t) →
  ∃ bt, make_batch tok st tx ty bert = Ok bt ∧
        batch_shape (length tx) st.(sequence_length) bt.
Proof.
  intros Hpos Hlen Hne Hready Henc. unfold make_batch.
  destruct (pad_sequences_width st.(sequence_length) (embedding_tokenize tok tx) Hpos)
    as (rows & Hrows & Hwidth & Hnrows).
  rewrite Hrows. cbv [mbind result_bind].
  unfold embedding_tokenize in Hnrows. rewrite length_map in Hnrows.
  assert (Hfinal : ∀ ry, length ry = length ty →
    ∃ bt, Ok (mk_batch (if bert then XBert rows (replicate (length rows)
                          (replicate st.(sequence_length) 0)) else XPlain rows) ry)
            = Ok bt ∧ batch_shape (length tx) st.(sequence_length) bt).
  { intros ry Hry. eexists. split; [reflexivity|].
    unfold batch_shape, batch_rows.
    destruct bert; simpl; split_and!; try lia; try done.
    - by rewrite length_replicate.
    - apply Forall_replicate. apply length_replicate. }
  unfold target_encodable in Henc. destruct (multi_label st).
  - destruct (mlb_classes st) as [cls|]; [|done].
    apply Hfinal. apply length_map.
  - destruct (py_map_all_Ok (λ t, match t with
                                  | TStr s => Ok s
                                  | TSeq _ => Err TypeError
                                  end)
                (λ s, ∃ i, dict_get st.(label2idx) s = Ok i ∧
                           0 <= i < Z.of_nat (length st.(label2idx))) ty)
      as (ls & Hls & Hall & Hlen_ls).
    { intros t Ht. destruct (Henc t Ht) as (s & i & -> & Hg & Hr).
      exists s. split; [done|]. by exists i. }
    rewrite Hls. unfold convert_label_to_idx. cbv [mbind result_bind].
    destruct (py_map_all_Ok (dict_get st.(label2idx))
                (λ i, 0 <= i < Z.of_nat (length st.(label2idx))) ls)
      as (ids & Hids & Hall_ids & Hlen_ids).
    { intros s Hs. rewrite Forall_forall in Hall. apply Hall, Hs. }
    rewrite Hids.
    destruct (py_map_all_Ok (one_hot (length st.(label2idx))) (λ _, True) ids)
      as (rs & Hrs & _ & Hlen_rs).
    { intros i Hi. rewrite Forall_forall in Hall_ids.
      destruct (one_hot_in_range _ i (Hall_ids i Hi)) as [r Hr].
      by exists r. }
    rewrite to_categorical_classes, Hrs; [apply Hfinal; lia|].
    destruct ty as [|t ty]; [done|].
    destruct (Henc t (in_list_head t ty)) as (? & ? & _ & _ & ?). lia.
Qed.

Lemma py_slice_elem {A} (xs : list A) a b x : x ∈ py_slice xs a b → x ∈ xs.
Proof.
  unfold py_slice. intros H. eapply elem_of_sublist; [exact H|].
  transitivity (drop a xs); [apply sublist_take|apply sublist_drop].
Qed.

Lemma length_py_slice {A} (xs : list A) a b :
  length (py_slice xs a b) = Nat.min (b - a) (length xs - a).
Proof. unfold py_slice. rewrite length_take, length_drop. lia. Qed.

(** The slices a page selects: a full page before the last, the
    remainder on the last page, the first page in place of an empty
    last page. *)
Lemma select_page_rows {A B} (x : list A) (y : list B) b p :
  length x = length y → (0 < b)%nat → (0 < length x)%nat →
  (p ≤ length x / b)%nat →
  let '(tx, ty) := select_page x y b p in
  length tx = length ty ∧ (∀ t, t ∈ ty → t ∈ y) ∧
  ((p < length x / b)%nat →
     tx = py_slice x (p * b) (p * b + b) ∧ length tx = b) ∧
  (p = (length x / b)%nat → (length x mod b ≠ 0)%nat →
     tx = py_slice x (p * b) (p * b + b) ∧ length tx = (length x mod b)%nat) ∧
  (p = (length x / b)%nat → (length x mod b = 0)%nat →
     length (py_slice x (p * b) (p * b + b)) = 0%nat ∧
     tx = py_slice x 0 b ∧ ty = py_slice y 0 b ∧ length tx = b).
Proof.
  intros Hlen Hb Hn Hp. unfold select_page.
  pose proof (Nat.div_mod_eq (length x) b) as Hdm.
  pose proof (Nat.mod_upper_bound (length x) b ltac:(lia)) as Hmb.
  set (q := (length x / b)%nat) in *. set (r := (length x mod b)%nat) in *.
  assert (Hsx : ∀ a c, length (py_slice x a c) = length (py_slice y a c)).
  { intros a c. rewrite !length_py_slice, Hlen. done. }
  destruct (decide (length (py_slice x (p * b) (p * b + b)) = 0%nat)) as [He|Hne].
  - rewrite length_py_slice in He.
    assert (Hpq : p = q) by (destruct (decide (p < q)%nat); nia).
    assert (Hr : r = 0%nat) by nia.
    split_and!.
    + apply Hsx.
    + apply py_slice_elem.
    + intros. exfalso. lia.
    + intros. exfalso. lia.
    + intros _ _. split_and!; [by rewrite length_py_slice|done|done|].
      assert (Hq : (1 ≤ q)%nat) by (destruct q; lia).
      assert (Hbx : (b ≤ length x)%nat) by nia.
      rewrite length_py_slice. lia.
  - split_and!.
    + apply Hsx.
    + apply py_slice_elem.
    + intros Hlt. split; [done|]. rewrite length_py_slice. nia.
    + intros -> Hr. split; [done|]. rewrite length_py_slice. nia.
    + intros -> Hr. exfalso. apply Hne. rewrite length_py_slice. nia.
Qed.

Lemma join_targets_incl y xv yv ys :
  join_targets y xv yv = Ok ys → ∀ t, t ∈ y → t ∈ ys.
Proof.
  unfold join_targets. intros Hj t Ht.
  destruct xv as [[|x0 xs]|].
  - by injection Hj as <-.
  - destruct yv as [yv|]; [|discriminate]. injection Hj as <-.
    apply elem_of_app. by left.
  - by injection Hj as <-.
Qed.

(** After [build_token2id_label2id_dict], the generator can encode every
    training target. *)
Lemma build_targets_encodable S st0 x y xv yv st :
  build_token2id_label2id_dict S st0 x y xv yv = (st, Ok ()) →
  st.(mlb_classes) ≠ None ∧ st.(multi_label) = st0.(multi_label) ∧
  st.(sequence_length) = st0.(sequence_length) ∧
  (∀ t, t ∈ y → target_encodable st t).
Proof.
  intros Hb.
  destruct (build_label_index_shape S st0 x y xv yv st Hb)
    as (ys & labels & Hj & Ho & vocab & Hv & Hst).
  pose proof (build_label_index_facts S st0 x y xv yv st ys labels Hb Hj Ho)
    as [(_ & Hmem & Hrange & _) _].
  split_and!; [by rewrite Hst|by rewrite Hst|by rewrite Hst|].
  intros t Ht. unfold target_encodable.
  replace (multi_label st) with (multi_label st0) by (by rewrite Hst).
  destruct (multi_label st0) eqn:Hm; [done|].
  unfold observed_labels in Ho.
  destruct (py_map_Ok_elem _ _ _ Ho t (join_targets_incl y xv yv ys Hj t Ht))
    as (s & Hs & Hin).
  destruct t as [s'|ls]; [|discriminate]. injection Hs as <-.
  destruct (proj1 (Hmem s') Hin) as [i Hi].
  exists s', i. split; [done|split; [done|]].
  pose proof (Hrange s' i Hi) as Hr. unfold dict_keys in Hr.
  rewrite length_map in Hr. exact Hr.
Qed.

Lemma gen_page_shape tok st x y b bert p :
  length x = length y → (0 < b)%nat → (0 < length x)%nat →
  (p ≤ length x / b)%nat → (0 < st.(sequence_length))%nat →
  st.(mlb_classes) ≠ None → (∀ t, t ∈ y → target_encodable st t) →
  ∃ bt, gen_page tok st x y b bert p = Ok bt ∧
        page_batch_shape (length x) b st.(sequence_length) p bt.
Proof.
  intros Hlen Hb Hn Hp Hseq Hready Henc. unfold gen_page.
  pose proof (select_page_rows x y b p Hlen Hb Hn Hp) as Hsel.
  destruct (select_page x y b p) as [tx ty].
  destruct Hsel as (Hl & Hin & Hfull & Hrem & Hsub).
  destruct (make_batch_shape tok st tx ty bert Hseq Hl)
    as (bt & Hbt & Hshape).
  { intros ->. simpl in Hl. apply length_zero_iff_nil in Hl as ->.
    destruct (decide (p < length x / b)%nat) as [Hlt|Hge].
    - destruct (Hfull Hlt) as [_ Hb0]. simpl in Hb0. lia.
    - assert (Heq : p = (length x / b)%nat) by lia.
      destruct (decide (length x mod b = 0)%nat) as [Hr|Hr].
      + destruct (Hsub Heq Hr) as (_ & _ & _ & Hb0). simpl in Hb0. lia.
      + destruct (Hrem Heq Hr) as [_ Hb0]. simpl in Hb0. lia. }
  { done. }
  { intros t Ht. apply Henc, Hin, Ht. }
  exists bt. split; [done|]. unfold page_batch_shape. split_and!.
  - done.
  - intros Hlt. destruct (Hfull Hlt) as [_ <-]. done.
  - intros Heq Hr. destruct (Hrem Heq Hr) as [_ <-]. done.
  - intros Heq Hr. destruct (Hsub Heq Hr) as (_ & _ & _ & <-). done.
Qed.

Lemma yield_pages_shape tok st x y b bert perm :
  (∀ p, p ∈ perm →
     ∃ bt, gen_page tok st x y b bert p = Ok bt ∧
           page_batch_shape (length x) b st.(sequence_length) p bt) →
  let '(bts, err) := yield_pages tok st x y b bert perm in
  err = None ∧
  Forall2 (page_batch_shape (length x) b st.(sequence_length)) perm bts.
Proof.
  induction perm as [|p ps IH]; intros Hall; simpl.
  - split; [done|constructor].
  - destruct (Hall p (in_list_head p ps)) as (bt & Hbt & Hsh). rewrite Hbt.
    destruct (yield_pages tok st x y b bert ps) as [bts err] eqn:Hy.
    destruct IH as [Herr Hf2].
    { intros p' Hp'. apply Hall. by right. }
    split; [done|]. by constructor.
Qed.

Lemma get_data_generator_shape tok st x y b bert shuffles :
  (∀ p, (p ≤ length x / b)%nat →
     ∃ bt, gen_page tok st x y b bert p = Ok bt ∧
           page_batch_shape (length x) b st.(sequence_length) p bt) →
  valid_shuffles (length x) b shuffles →
  let '(bts, err) := get_data_generator tok st x y b bert shuffles in
  err = None ∧
  Forall2 (page_batch_shape (length x) b st.(sequence_length)) (mjoin shuffles) bts.
Proof.
  intros Hpage (pl & Hpl & Hperm). revert Hperm.
  induction shuffles as [|perm rest IH]; intros Hperm; simpl.
  - split; [done|constructor].
  - rewrite Hpl. apply Forall_cons in Hperm as [Hp Hrest].
    pose proof (yield_pages_shape tok st x y b bert perm) as Hy.
    destruct (yield_pages tok st x y b bert perm) as [bts err].
    destruct Hy as [-> Hf2].
    { intros p Hin. apply Hpage.
      unfold page_list, py_floordiv in Hpl.
      destruct (decide (b = 0%nat)); [discriminate|].
      injection Hpl as <-. rewrite Hp, elem_of_seq in Hin. lia. }
    destruct (get_data_generator tok st x y b bert rest) as [bts' err'].
    destruct (IH Hrest) as [-> Hf2'].
    split; [done|]. by apply Forall2_app.
Qed.

Lemma build_three :
  build_token2id_label2id_dict set_order_example st_example x_three y_three
    None None = (st_three, Ok ()).
Proof. vm_compute. reflexivity. Qed.

Lemma pad_row_post maxlen s :
  (length s ≤ maxlen)%nat →
  pad_row maxlen s = Ok (s ++ replicate (maxlen - length s) 0).
Proof.
  intros Hle. destruct s as [|z s'].
  - simpl. by rewrite Nat.sub_0_r.
  - unfold pad_row. destruct (decide (maxlen = 0%nat)) as [H0|_].
    + simpl in Hle. lia.
    + replace (length (z :: s') - maxlen)%nat with 0%nat by lia.
      rewrite drop_0. destruct (decide _); [done|lia].
Qed.

Lemma pad_row_truncate_pre maxlen s :
  (0 < maxlen < length s)%nat →
  pad_row maxlen s = Ok (drop (length s - maxlen) s).
Proof.
  intros Hlt. destruct s as [|z s']; [simpl in Hlt; lia|].
  unfold pad_row. destruct (decide (maxlen = 0%nat)) as [H0|_]; [lia|].
  destruct (decide _) as [Hle|Hgt].
  - rewrite length_drop. replace (maxlen - _)%nat with 0%nat by lia.
    by rewrite app_nil_r.
  - exfalso. apply Hgt. rewrite length_drop. lia.
Qed.

(** C1 (counterexample): with three examples and batch size 2, the pass
    over pages [0; 1] yields a batch of 2 examples and then the trailing
    batch of a single example. *)
Lemma generator_batches_not_all_full :
  ¬ (∀ tok S st0 x y xv yv st b bert shuffles,
       build_token2id_label2id_dict S st0 x y xv yv = (st, Ok ()) →
       length x = length y → (0 < st0.(sequence_length))%nat →
       (0 < b ≤ length x)%nat → valid_shuffles (length x) b shuffles →
       Forall (batch_shape b st.(sequence_length))
         (get_data_generator tok st x y b bert shuffles).1).
Proof.
  intros H.
  assert (Hv : valid_shuffles (length x_three) 2 [[0; 1]%nat]).
  { exists [0; 1]%nat. split; [reflexivity|]. repeat constructor. }
  pose proof (H tokenize_example set_order_example st_example x_three y_three
                None None st_three 2%nat false [[0; 1]%nat]
                build_three eq_refl ltac:(simpl; lia) ltac:(simpl; lia) Hv)
    as Hall.
  vm_compute in Hall.
  inversion Hall as [|b1 bs1 _ Hrest]. subst.
  inversion Hrest as [|b2 bs2 (Hrows & _) _]. subst.
  vm_compute in Hrows. discriminate.
Qed.

(** C1: for [N] parallel examples, a batch size [0 < B <= N] and any
    shuffles of the page list, the generator raises nothing and the
    batch of page [p] has [B] examples, except the trailing page [N // B]
    which has the [N mod B] remaining examples when [B] does not divide
    [N]; every token row (and BERT segment row) has the configured
    sequence length: shorter rows are padded at the end, longer rows keep
    their last tokens. *)
Theorem generator_batch_shapes tok S st0 x y xv yv st b bert shuffles :
  build_token2id_label2id_dict S st0 x y xv yv = (st, Ok ()) →
  length x = length y → (0 < st0.(sequence_length))%nat →
  (0 < b ≤ length x)%nat → valid_shuffles (length x) b shuffles →
  (let '(bts, err) := get_data_generator tok st x y b bert shuffles in
   err = None ∧
   Forall2 (page_batch_shape (length x) b st0.(sequence_length))
     (mjoin shuffles) bts) ∧
  (∀ s, (length s ≤ st0.(sequence_length))%nat →
     pad_row st0.(sequence_length) s
     = Ok (s ++ replicate (st0.(sequence_length) - length s) 0)) ∧
  (∀ s, (st0.(sequence_length) < length s)%nat →
     pad_row st0.(sequence_length) s
     = Ok (drop (length s - st0.(sequence_length)) s)).
Proof.
  intros Hb Hlen Hseq Hbx Hv.
  destruct (build_targets_encodable S st0 x y xv yv st Hb)
    as (Hready & _ & Hseq' & Henc).
  split_and!.
  - rewrite <- Hseq'. apply get_data_generator_shape; [|done].
    intros p Hp. apply gen_page_shape; try done; lia.
  - intros s Hs. by apply pad_row_post.
  - intros s Hs. apply pad_row_truncate_pre. lia.
Qed.

Lemma generator_batch_shapes_witness :
  let '(bts, err) := get_data_generator tokenize_example st_three x_three
                       y_three 2 false [[1; 0]%nat] in
  err = None ∧ Forall2 (page_batch_shape 3 2 3) [1; 0]%nat bts.
Proof.
  assert (Hv : valid_shuffles (length x_three) 2 [[1; 0]%nat]).
  { exists [0; 1]%nat. split; [reflexivity|].
    constructor; [apply Permutation_swap|constructor]. }
  exact (proj1 (generator_batch_shapes tokenize_example set_order_example
                  st_example x_three y_three None None st_three 2%nat false
                  [[1; 0]%nat] build_three eq_refl ltac:(simpl; lia)
                  ltac:(simpl; lia) Hv)).
Defined.

(** C4 (counterexample): with no examples and batch size 1, page 0
    selects an empty slice and the substituted first page is empty too.
    The label index built from no targets is empty, so the page's labels
    go to [to_categorical([], num_classes=0)], which raises ValueError
    ([np.max] of no ids): the generator raises instead of yielding a
    batch. *)
Lemma empty_page_batch_can_be_empty :
  ¬ (∀ tok S st0 x y xv yv st b bert p pl,
       build_token2id_label2id_dict S st0 x y xv yv = (st, Ok ()) →
       length x = length y → (0 < st0.(sequence_length))%nat → (0 < b)%nat →
       page_list (length x) b = Ok pl → p ∈ pl →
       length (py_slice x (p * b) (p * b + b)) = 0%nat →
       ∃ bt, gen_page tok st x y b bert p = Ok bt ∧ (0 < batch_rows bt)%nat).
Proof.
  intros H.
  destruct (H tokenize_example set_order_example st_example [] [] None None
              (mk_clf false [] [] (Some []) 3 false false false [] vocab_fixed) 1%nat false 0%nat
              [0%nat] ltac:(vm_compute; reflexivity) eq_refl
              ltac:(simpl; lia) ltac:(lia) eq_refl ltac:(by left) eq_refl)
    as (bt & Hbt & Hrows).
  vm_compute in Hbt. discriminate.
Qed.

(** C4: for [N >= 1] parallel examples and a batch size [B >= 1], a page
    of the page list selects an empty slice only when it is the trailing
    page [N // B] and [B] divides [N]; the generator then uses the first
    page [x[0:B]], [y[0:B]] in its place and yields, without raising, a
    batch of exactly [B] examples of the configured sequence length. *)
Theorem empty_page_substituted tok S st0 x y xv yv st b bert p pl :
  build_token2id_label2id_dict S st0 x y xv yv = (st, Ok ()) →
  length x = length y → (0 < st0.(sequence_length))%nat →
  (0 < b)%nat → (0 < length x)%nat →
  page_list (length x) b = Ok pl → p ∈ pl →
  length (py_slice x (p * b) (p * b + b)) = 0%nat →
  p = (length x / b)%nat ∧ (length x mod b = 0)%nat ∧
  select_page x y b p = (py_slice x 0 b, py_slice y 0 b) ∧
  ∃ bt, gen_page tok st x y b bert p = Ok bt ∧
        batch_shape b st0.(sequence_length) bt.
Proof.
  intros Hb Hlen Hseq Hbpos Hn Hpl Hp Hempty.
  destruct (build_targets_encodable S st0 x y xv yv st Hb)
    as (Hready & _ & Hseq' & Henc).
  assert (Hpq : (p ≤ length x / b)%nat).
  { unfold page_list, py_floordiv in Hpl.
    destruct (decide (b = 0%nat)); [discriminate|].
    injection Hpl as <-. rewrite elem_of_seq in Hp. lia. }
  pose proof (select_page_rows x y b p Hlen Hbpos Hn Hpq) as Hsel.
  destruct (select_page x y b p) as [tx ty] eqn:Hsp.
  destruct Hsel as (_ & _ & Hfull & Hrem & Hsub).
  assert (Heq : p = (length x / b)%nat).
  { destruct (decide (p < length x / b)%nat) as [Hlt|]; [|lia].
    destruct (Hfull Hlt) as [Htx Hl]. rewrite <- Htx in Hempty. lia. }
  assert (Hr : (length x mod b = 0)%nat).
  { destruct (decide (length x mod b = 0)%nat) as [|Hne]; [done|].
    destruct (Hrem Heq Hne) as [Htx Hl]. rewrite <- Htx in Hempty. lia. }
  destruct (Hsub Heq Hr) as (_ & -> & -> & _).
  split_and!; [done|done|done|].
  destruct (gen_page_shape tok st x y b bert p Hlen Hbpos Hn Hpq
              ltac:(lia) Hready Henc) as (bt & Hbt & _ & _ & _ & Hsh).
  exists bt. split; [done|]. rewrite <- Hseq'. by apply Hsh.
Qed.


Lemma empty_page_substituted_witness :
  (1 = length x_example / 2)%nat ∧ (length x_example mod 2 = 0)%nat ∧
  select_page x_example y_example 2 1
  = (py_slice x_example 0 2, py_slice y_example 0 2) ∧
  ∃ bt, gen_page tokenize_example st_built_example x_example y_example 2
          false 1 = Ok bt ∧ batch_shape 2 3 bt.
Proof.
  exact (empty_page_substituted tokenize_example set_order_example st_example
           x_example y_example None None st_built_example 2%nat false 1%nat
           [0; 1]%nat ltac:(vm_compute; reflexivity) eq_refl
           ltac:(simpl; lia) ltac:(lia) ltac:(simpl; lia) eq_refl
           ltac:(right; left) eq_refl).
Defined.

(** ** [predict] *)

Lemma py_map_EStr (s : list string) :
  py_map (λ e, match e with EStr w => Ok w | ESent _ => Err TypeError end)
    (map EStr s) = Ok s.
Proof. induction s as [|w s IH]; simpl; [done|]. by rewrite IH. Qed.

(** One row of results per sentence, none of them a list. *)
Lemma predict_results_one st sentence il od row ws rs :
  words_of sentence il = Ok [ws] →
  predict_results st sentence il od [row] = Ok rs →
  ∃ r, rs = [r] ∧ ∀ rs', r ≠ OList rs'.
Proof.
  intros Hw. unfold predict_results. destruct od.
  - rewrite Hw. cbv [mbind result_bind py_map2].
    unfold format_output_dic.
    destruct (py_map _ _) as [cands|e]; cbv [mbind result_bind];
      [|discriminate].
    destruct cands as [|c cands]; [discriminate|].
    intros [= <-]. by eexists.
  - destruct (multi_label st).
    + destruct (mlb_classes st) as [cls|]; [|discriminate].
      destruct (mlb_fitted st); [|discriminate].
      simpl. unfold inverse_transform_row.
      destruct (decide _); [discriminate|]. destruct (forallb _ _); [|discriminate].
      intros [= <-]. by eexists.
    + simpl. destruct (argmax row) as [i|e]; [|discriminate]. simpl.
      destruct (dict_get (idx2label st) i) as [l|e]; [|discriminate].
      intros [= <-]. by eexists.
Qed.

(** [predict] on the tokens of one sentence and on the list holding that
    sentence compute the same per-sentence results; the first returns
    [results[0]], the second the list. *)
Lemma predict_common tok net st s od t :
  s ≠ [] →
  ∃ R : result (list py_out),
    predict tok net st (map EStr s) od t = (rs ← R; py_index rs 0) ∧
    predict tok net st [ESent s] od t = (rs ← R; Ok (OList rs)) ∧
    ∀ rs, R = Ok rs → ∃ r, rs = [r] ∧ ∀ rs', r ≠ OList rs'.
Proof.
  intros Hs. destruct s as [|w s']; [done|].
  assert (Hw1 : words_of (map EStr (w :: s')) false = Ok [w :: s']).
  { unfold words_of. rewrite py_map_EStr. done. }
  assert (Hw2 : words_of [ESent (w :: s')] true = Ok [w :: s']) by done.
  assert (Hpr : ∀ res, predict_results st (map EStr (w :: s')) false od res
                       = predict_results st [ESent (w :: s')] true od res).
  { intros res. unfold predict_results. destruct od; [|done].
    by rewrite Hw1, Hw2. }
  unfold predict.
  assert (Htok : tokenize_input tok (map EStr (w :: s'))
                 = Ok (TokOne (tok (w :: s')))).
  { unfold tokenize_input. simpl map. rewrite <- (map_cons EStr w s').
    rewrite py_map_EStr. done. }
  rewrite Htok. cbv [mbind result_bind]. simpl is_list_arg. simpl tokenize_input.
  simpl py_map. cbv [mbind result_bind].
  unfold pad_sequences. simpl py_map.
  destruct (pad_row (sequence_length st) (tok (w :: s'))) as [row|e].
  - cbv [mbind result_bind].
    assert (Hone : ∀ row', ∃ R, (rs ← predict_results st (map EStr (w :: s')) false od [row'];
                               py_index rs 0) = (rs ← R; py_index rs 0) ∧
                           (rs ← predict_results st [ESent (w :: s')] true od [row'];
                               Ok (OList rs)) = (rs ← R; Ok (OList rs)) ∧
                           ∀ rs, R = Ok rs → ∃ r, rs = [r] ∧ ∀ rs', r ≠ OList rs').
    { intros row'. exists (predict_results st [ESent (w :: s')] true od [row']).
      rewrite Hpr. split_and!; [done|done|].
      intros rs Hrs. eapply predict_results_one; [exact Hw2|exact Hrs]. }
    simpl map. destruct (multi_label st); apply Hone.
  - exists (Err e). split_and!; [reflexivity|reflexivity|discriminate].
Qed.

(** C5 (counterexample): the empty sentence.  [predict] on the empty list
    of tokens raises [IndexError] at [sentence[0]], while [predict] on the
    list holding the empty sentence returns a one-element list. *)
Lemma predict_empty_sentence_raises :
  ¬ (∀ tok net st s od t r,
       predict tok net st [ESent s] od t = Ok (OList [r]) →
       predict tok net st (map EStr s) od t = Ok r).
Proof.
  intros H.
  pose proof (H tokenize_example net_example st_built_example [] false
                default_threshold (OLabel "pos")
                ltac:(vm_compute; reflexivity)) as Hsingle.
  vm_compute in Hsingle. discriminate.
Qed.

(** C5: for every model and every non-empty sentence [s] given as its
    tokens, [predict] on [s] returns a result [r] that is not a list
    exactly when [predict] on [[s]] returns the one-element list [[r]],
    and both raise the same exception otherwise. *)
Theorem predict_single_vs_list tok net st s od t :
  s ≠ [] →
  (∀ r, predict tok net st (map EStr s) od t = Ok r ↔
        predict tok net st [ESent s] od t = Ok (OList [r])) ∧
  (∀ r, predict tok net st (map EStr s) od t = Ok r → ∀ rs, r ≠ OList rs) ∧
  (∀ e, predict tok net st (map EStr s) od t = Err e ↔
        predict tok net st [ESent s] od t = Err e).
Proof.
  intros Hs.
  destruct (predict_common tok net st s od t Hs) as (R & -> & -> & Hone).
  destruct R as [rs|e]; cbv [mbind result_bind].
  - destruct (Hone rs eq_refl) as (r & -> & Hr). simpl.
    split_and!.
    + intros r'. split; [by intros [= <-]|by intros [= <-]].
    + intros r' [= <-]. exact Hr.
    + intros e. split; discriminate.
  - split_and!; [intros r; split; discriminate|discriminate|done].
Qed.

Lemma predict_single_vs_list_witness :
  predict tokenize_example net_example st_built_example (map EStr ["good"])
    false default_threshold = Ok (OLabel "pos") ∧
  predict tokenize_example net_example st_built_example [ESent ["good"]]
    false default_threshold = Ok (OList [OLabel "pos"]).
Proof.
  destruct (predict_single_vs_list tokenize_example net_example st_built_example
              ["good"] false default_threshold ltac:(discriminate))
    as (Hiff & _ & _).
  split; [vm_compute; reflexivity|].
  apply Hiff. vm_compute. reflexivity.
Defined.

Lemma SFcompare_swap x y :
  SFcompare y x = option_map CompOpp (SFcompare x y).
Proof.
  destruct x as [sx|sx| |sx mx ex], y as [sy|sy| |sy my ey];
    try destruct sx; try destruct sy; simpl; try reflexivity.
  all: assert (Hp : Pos.compare_cont Eq my mx = CompOpp (Pos.compare_cont Eq mx my))
         by (rewrite (Pos.compare_cont_antisym mx my Eq); reflexivity);
       rewrite Hp, (Z.compare_antisym ex ey);
       destruct (ex ?= ey)%Z; simpl; try reflexivity;
       destruct (Pos.compare_cont Eq mx my); reflexivity.
Qed.

Lemma SFltb_not_SFleb x y : SFltb x y = true → SFleb y x = false.
Proof.
  unfold SFltb, SFleb. rewrite (SFcompare_swap x y).
  destruct (SFcompare x y) as [[]|]; simpl; congruence.
Qed.

(** Each score of a row is thresholded on its own: to 1 from [t] on,
    to 0 below [t] (when 1 is not below [t]). *)
Lemma threshold_row_pointwise t row :
  SFltb float_one t = false →
  Forall2 (λ x y, (SFleb t x = true → y = float_one) ∧
                  (SFltb x t = true → y = float_zero))
    row (threshold_row t row).
Proof.
  intros Hone. unfold threshold_row.
  induction row as [|x row IH]; simpl; constructor; [|exact IH].
  split.
  - intros Hle. rewrite Hle, Hone. done.
  - intros Hlt. rewrite (SFltb_not_SFleb x t Hlt), Hlt. done.
Qed.

Lemma tokenize_input_EStr tok s :
  s ≠ [] → tokenize_input tok (map EStr s) = Ok (TokOne (tok s)).
Proof.
  intros Hs. destruct s as [|w s']; [done|].
  unfold tokenize_input. simpl map. rewrite <- (map_cons EStr w s').
  rewrite py_map_EStr. done.
Qed.

(** C6: for a multi-label model and the default threshold 0.6, [predict]
    on one sentence, once the label binarizer has been fitted (by
    [load_model], or by drawing a training batch), inverse-transforms the
    thresholded scores of the network; a score becomes 1 when it is at least 0.6 and 0 when it is
    below 0.6, each score on its own; the scores [0.7; 0.4; 0.61] over
    three classes decode to the classes at indices 0 and 2. *)
Theorem multi_label_threshold_decode tok net st s cls row :
  st.(multi_label) = true → st.(mlb_classes) = Some cls →
  st.(mlb_fitted) = true → s ≠ [] →
  pad_row st.(sequence_length) (tok s) = Ok row →
  predict tok net st (map EStr s) false default_threshold
  = inverse_transform_row cls (threshold_row default_threshold (net row)) ∧
  Forall2 (λ x y, (SFleb default_threshold x = true → y = float_one) ∧
                  (SFltb x default_threshold = true → y = float_zero))
    (net row) (threshold_row default_threshold (net row)) ∧
  ∀ a b c, inverse_transform_row [a; b; c]
             (threshold_row default_threshold
                [Prim2SF 0.7%float; Prim2SF 0.4%float; Prim2SF 0.61%float])
           = Ok (OTuple [a; c]).
Proof.
  intros Hm Hc Hf Hs Hpad. split_and!.
  - unfold predict. rewrite (tokenize_input_EStr tok s Hs).
    cbv [mbind result_bind].
    destruct s as [|w s']; [done|]. simpl is_list_arg.
    unfold pad_sequences. simpl py_map. rewrite Hpad.
    cbv [mbind result_bind]. rewrite Hm. simpl map.
    unfold predict_results. rewrite Hm, Hc, Hf. simpl py_map.
    destruct (inverse_transform_row cls _) as [r|e]; reflexivity.
  - apply threshold_row_pointwise. vm_compute. reflexivity.
  - intros a b c. vm_compute. reflexivity.
Qed.

Lemma multi_label_threshold_decode_witness :
  predict tokenize_example net_scores_example st_multi_example
    (map EStr ["good"]) false default_threshold = Ok (OTuple ["a"; "c"]).
Proof.
  destruct (multi_label_threshold_decode tokenize_example net_scores_example
              st_multi_example ["good"] ["a"; "b"; "c"] [1; 0; 0]
              eq_refl eq_refl eq_refl ltac:(discriminate)
              ltac:(vm_compute; reflexivity))
    as (-> & _ & Hdec).
  exact (Hdec "a" "b" "c").
Defined.

(* ================================================================== *)
(** * Further properties of the code *)

(** ** Dicts built from pairs *)

Lemma dict_get_set {K V} `{EqDecision K} (d : pydict K V) k v k' :
  dict_get (dict_set d k v) k' = if decide (k' = k) then Ok v else dict_get d k'.
Proof.
  induction d as [|[k0 v0] d IH]; simpl.
  - done.
  - destruct (decide (k = k0)) as [->|Hne]; simpl.
    + destruct (decide (k' = k0)); done.
    + rewrite IH. destruct (decide (k' = k0)) as [->|]; [|done].
      by rewrite decide_False.
Qed.

Lemma dict_of_pairs_snoc {K V} `{EqDecision K} (ps : list (K * V)) k v :
  dict_of_pairs (ps ++ [(k, v)]) = dict_set (dict_of_pairs ps) k v.
Proof. unfold dict_of_pairs. by rewrite fold_left_app. Qed.

(** [dict(pairs)]: a key gets the value of its last pair. *)
Lemma dict_get_of_pairs_last {K V} `{EqDecision K} (ps1 ps2 : list (K * V)) k v :
  k ∉ map fst ps2 → dict_get (dict_of_pairs (ps1 ++ (k, v) :: ps2)) k = Ok v.
Proof.
  induction ps2 as [|[k2 v2] ps2 IH] using rev_ind; intros Hk.
  - rewrite dict_of_pairs_snoc, dict_get_set. by rewrite decide_True.
  - replace (ps1 ++ (k, v) :: ps2 ++ [(k2, v2)])
      with ((ps1 ++ (k, v) :: ps2) ++ [(k2, v2)])
      by (by rewrite <- app_assoc).
    rewrite dict_of_pairs_snoc, dict_get_set.
    rewrite map_app in Hk. simpl in Hk.
    rewrite decide_False.
    + apply IH.
      intros Hin. apply Hk, elem_of_app. by left.
    + intros ->. apply Hk, elem_of_app. right. by left.
Qed.

Lemma dict_get_of_pairs_in {K V} `{EqDecision K} (ps : list (K * V)) k v :
  dict_get (dict_of_pairs ps) k = Ok v → (k, v) ∈ ps.
Proof.
  induction ps as [|[k2 v2] ps IH] using rev_ind; [discriminate|].
  rewrite dict_of_pairs_snoc, dict_get_set. intros Hg.
  apply elem_of_app. destruct (decide (k = k2)) as [->|].
  - injection Hg as <-. right. by left.
  - left. by apply IH.
Qed.

Lemma dict_get_of_pairs_missing {K V} `{EqDecision K} (ps : list (K * V)) k :
  k ∉ map fst ps → dict_get (dict_of_pairs ps) k = Err KeyError.
Proof.
  induction ps as [|[k2 v2] ps IH] using rev_ind; [done|].
  rewrite dict_of_pairs_snoc, dict_get_set, map_app. simpl. intros Hk.
  rewrite decide_False.
  - apply IH. intros Hin. apply Hk, elem_of_app. by left.
  - intros ->. apply Hk, elem_of_app. right. by left.
Qed.

Lemma dict_get_Ok_in {K V} `{EqDecision K} (d : pydict K V) k v :
  dict_get d k = Ok v → (k, v) ∈ d.
Proof.
  induction d as [|[k' v'] d IH]; simpl; [discriminate|].
  destruct (decide (k = k')) as [->|].
  - intros [= <-]. by left.
  - intros H. right. by apply IH.
Qed.

Lemma dict_get_NoDup_in {K V} `{EqDecision K} (d : pydict K V) k v :
  NoDup (dict_keys d) → (k, v) ∈ d → dict_get d k = Ok v.
Proof.
  induction d as [|[k' v'] d IH]; simpl; intros Hnd Hin.
  - by apply not_elem_of_nil in Hin.
  - apply NoDup_cons in Hnd as [Hk' Hnd].
    apply elem_of_cons in Hin as [[= -> ->]|Hin].
    + by rewrite decide_True.
    + rewrite decide_False; [by apply IH|].
      intros ->. apply Hk'. unfold dict_keys. apply list_elem_of_fmap.
      by exists (k', v).
Qed.

Lemma swap_pairs_split (v1 v2 : pydict string Z) l i :
  map (λ kv : string * Z, (kv.2, kv.1)) (v1 ++ (l, i) :: v2)
  = map (λ kv : string * Z, (kv.2, kv.1)) v1 ++ (i, l) ::
    map (λ kv : string * Z, (kv.2, kv.1)) v2.
Proof. by rewrite map_app. Qed.

Lemma map_fst_swap (v : pydict string Z) :
  map fst (map (λ kv : string * Z, (kv.2, kv.1)) v) = map snd v.
Proof. rewrite map_map. done. Qed.

(** ** The [label2idx] setter *)

(** X1: setting [label2idx] to a dict whose ids are distinct makes
    [idx2label] its exact inverse. *)
Theorem label2idx_setter_inverse st value :
  NoDup (dict_keys value) → NoDup (map snd value) →
  ∀ l i, dict_get (set_label2idx st value).(idx2label) i = Ok l ↔
         dict_get value l = Ok i.
Proof.
  intros Hk Hv l i. simpl. split.
  - intros Hg. apply dict_get_of_pairs_in in Hg.
    apply list_elem_of_fmap in Hg as ([l' i'] & [= -> ->] & Hin).
    by apply dict_get_NoDup_in.
  - intros Hg. apply dict_get_Ok_in, list_elem_of_split in Hg as (v1 & v2 & ->).
    rewrite swap_pairs_split. apply dict_get_of_pairs_last.
    rewrite map_fst_swap. rewrite map_app in Hv. simpl in Hv.
    apply NoDup_app in Hv as (_ & _ & Hv). by apply NoDup_cons in Hv as [? _].
Qed.

Lemma label2idx_setter_inverse_witness :
  NoDup (dict_keys [("neg", 0); ("pos", 1)]) ∧ NoDup (map snd [("neg", 0); ("pos", 1)]) ∧
  (dict_get (set_label2idx st_example [("neg", 0); ("pos", 1)]).(idx2label) 1
   = Ok "pos" ↔ dict_get [("neg", 0); ("pos", 1)] "pos" = Ok 1).
Proof.
  assert (H1 : NoDup (dict_keys [("neg", 0); ("pos", 1)])) by (apply (bool_decide_unpack _); vm_compute; reflexivity).
  assert (H2 : NoDup (map snd [("neg", 0); ("pos", 1)])) by (apply (bool_decide_unpack _); vm_compute; reflexivity).
  split_and!; [exact H1|exact H2|].
  exact (label2idx_setter_inverse st_example _ H1 H2 "pos" 1).
Defined.

(** X2: when several labels share an id, the setter's [idx2label] maps
    the id to the last of them; the others cannot be recovered. *)
Theorem label2idx_setter_last_label_wins st v1 l i v2 :
  i ∉ map snd v2 →
  dict_get (set_label2idx st (v1 ++ (l, i) :: v2)).(idx2label) i = Ok l.
Proof.
  intros Hi. simpl. rewrite swap_pairs_split. apply dict_get_of_pairs_last.
  by rewrite map_fst_swap.
Qed.

Lemma label2idx_setter_last_label_wins_witness :
  dict_get (set_label2idx st_example [("neg", 0); ("pos", 0)]).(idx2label) 0
  = Ok "pos".
Proof.
  exact (label2idx_setter_last_label_wins st_example [("neg", 0)] "pos" 0 []
           (not_elem_of_nil _)).
Defined.

(** ** The label index *)

Lemma build_label_lookup S st x y xv yv st' ys labels l :
  build_token2id_label2id_dict S st x y xv yv = (st', Ok ()) →
  join_targets y xv yv = Ok ys →
  observed_labels st.(multi_label) ys = Ok labels →
  l ∈ labels →
  ∃ i, dict_get st'.(label2idx) l = Ok i ∧ dict_get st'.(idx2label) i = Ok l.
Proof.
  intros Hb Hj Ho Hl.
  destruct (build_label_index_shape S st x y xv yv st' Hb)
    as (ys' & labels' & Hj' & Ho' & ? & _ & ->).
  rewrite Hj in Hj'. injection Hj' as <-. rewrite Ho in Ho'. injection Ho' as <-.
  apply (set_iter_elem S) in Hl. apply list_elem_of_lookup_1 in Hl as [n Hn].
  exists (0 + Z.of_nat n). simpl. split.
  - exact (enum_from_lookup 0 _ n l (set_iter_NoDup S labels) Hn).
  - exact (swap_enum_lookup 0 _ n l Hn).
Qed.

(** X4: after [build_token2id_label2id_dict], converting a list of
    observed labels to ids and back gives the same list. *)
Theorem label_list_roundtrip S st x y xv yv st' ys labels ls :
  build_token2id_label2id_dict S st x y xv yv = (st', Ok ()) →
  join_targets y xv yv = Ok ys →
  observed_labels st.(multi_label) ys = Ok labels →
  (∀ l, l ∈ ls → l ∈ labels) →
  (convert_label_to_idx st' (LList ls) ≫= convert_idx_to_label st')
  = Ok (LList ls).
Proof.
  intros Hb Hj Ho Hls. unfold convert_label_to_idx, convert_idx_to_label.
  assert (H : ∀ ls', (∀ l, l ∈ ls' → l ∈ labels) →
            ∃ is, py_map (dict_get st'.(label2idx)) ls' = Ok is ∧
                  py_map (dict_get st'.(idx2label)) is = Ok ls').
  { induction ls' as [|l ls' IH]; intros Hin; [by exists []|].
    destruct (build_label_lookup S st x y xv yv st' ys labels l Hb Hj Ho
                (Hin l (in_list_head l ls'))) as (i & Hi & Hl).
    destruct IH as (is & His & Hback).
    { intros l' Hl'. apply Hin. by right. }
    exists (i :: is). simpl. rewrite Hi, His. simpl. rewrite Hl, Hback. done. }
  destruct (H ls Hls) as (is & His & Hback).
  rewrite His. simpl. rewrite Hback. done.
Qed.

Lemma label_list_roundtrip_witness :
  (convert_label_to_idx st_built_example (LList ["pos"; "neg"; "pos"])
     ≫= convert_idx_to_label st_built_example) = Ok (LList ["pos"; "neg"; "pos"]).
Proof.
  apply (label_list_roundtrip set_order_example st_example x_example y_example
           None None st_built_example y_example ["pos"; "neg"]);
    [vm_compute; reflexivity ..|].
  intros l Hl. apply list_elem_of_In. apply list_elem_of_In in Hl.
  simpl in *. tauto.
Defined.

(** X5: the number of classes, [len(label2idx)] (the [num_classes] of
    [to_categorical]), is the number of distinct observed labels. *)
Theorem label_count_distinct S st x y xv yv st' ys labels :
  build_token2id_label2id_dict S st x y xv yv = (st', Ok ()) →
  join_targets y xv yv = Ok ys →
  observed_labels st.(multi_label) ys = Ok labels →
  length st'.(label2idx) = length (remove_dups labels) ∧
  length st'.(idx2label) = length (remove_dups labels).
Proof.
  intros Hb Hj Ho.
  destruct (build_label_index_shape S st x y xv yv st' Hb)
    as (ys' & labels' & Hj' & Ho' & ? & _ & ->).
  rewrite Hj in Hj'. injection Hj' as <-. rewrite Ho in Ho'. injection Ho' as <-.
  simpl. unfold swap_pairs. rewrite length_map.
  assert (Hl : length (enum_from 0 (set_iter S labels)) = length (set_iter S labels)).
  { transitivity (length (dict_keys (enum_from 0 (set_iter S labels)))).
    - unfold dict_keys. by rewrite length_map.
    - by rewrite dict_keys_enum_from. }
  rewrite Hl. assert (Hp : set_iter S labels ≡ₚ remove_dups labels).
  { apply NoDup_Permutation; [apply set_iter_NoDup|apply NoDup_remove_dups|].
    intros l. by rewrite set_iter_elem, elem_of_remove_dups. }
  rewrite Hp. done.
Qed.

Lemma label_count_distinct_witness :
  length st_built_example.(label2idx) = length (remove_dups ["pos"; "neg"]) ∧
  length st_built_example.(idx2label) = length (remove_dups ["pos"; "neg"]).
Proof.
  exact (label_count_distinct set_order_example st_example x_example
           y_example None None st_built_example y_example ["pos"; "neg"]
           ltac:(vm_compute; reflexivity) eq_refl eq_refl).
Defined.

(** The labels a target contributes in multi-label mode: [list(i)]. *)
Lemma multi_observed_elem ys l :
  l ∈ mjoin (map (λ t, match t with
                       | TStr s => py_list_of_str s
                       | TSeq ls => ls
                       end) ys) ↔
  ∃ t, t ∈ ys ∧ l ∈ match t with TStr s => py_list_of_str s | TSeq ls => ls end.
Proof.
  rewrite list_elem_of_join. split.
  - intros (L & HlL & HL). apply list_elem_of_fmap in HL as (t & -> & Ht).
    by exists t.
  - intros (t & Ht & Hl). eexists. split; [exact Hl|].
    apply list_elem_of_fmap. by exists t.
Qed.

(** X6: in multi-label mode the label index holds exactly the labels of
    the targets, a target given as a str counting as the list of its
    characters ([list("pos")] is [["p"; "o"; "s"]]). *)
Theorem multi_label_index_characters S st x y xv yv st' ys :
  st.(multi_label) = true →
  build_token2id_label2id_dict S st x y xv yv = (st', Ok ()) →
  join_targets y xv yv = Ok ys →
  ∀ l, (∃ i, dict_get st'.(label2idx) l = Ok i) ↔
       ∃ t, t ∈ ys ∧ l ∈ match t with TStr s => py_list_of_str s | TSeq ls => ls end.
Proof.
  intros Hm Hb Hj l.
  destruct (build_label_index_shape S st x y xv yv st' Hb)
    as (ys' & labels & Hj' & Ho & Hst).
  rewrite Hj in Hj'. injection Hj' as <-.
  destruct (build_label_index_facts S st x y xv yv st' ys labels Hb Hj Ho)
    as [(_ & Hmem & _) _].
  rewrite <- Hmem. unfold observed_labels in Ho. rewrite Hm in Ho.
  injection Ho as <-. apply multi_observed_elem.
Qed.

Lemma multi_label_index_characters_witness :
  (∃ i, dict_get (mk_clf true [("b", 0); ("a", 1)] [(0, "b"); (1, "a")]
                    (Some ["b"; "a"]) 3 false false false [] vocab_fixed).(label2idx) "a" = Ok i) ↔
  ∃ t, t ∈ [TStr "ab"] ∧
       "a" ∈ match t with TStr s => py_list_of_str s | TSeq ls => ls end.
Proof.
  exact (multi_label_index_characters set_order_example
           (mk_clf true [] [] None 3 false false false [] vocab_fixed) [["w"]] [TStr "ab"] None None
           (mk_clf true [("b", 0); ("a", 1)] [(0, "b"); (1, "a")]
              (Some ["b"; "a"]) 3 false false false [] vocab_fixed)
           [TStr "ab"] eq_refl ltac:(vm_compute; reflexivity) eq_refl "a").
Defined.

(** ** [fit] *)

(** X8: an assertion failure leaves the model as it was; an exception of
    [build_token2id_label2id_dict] leaves its label index, binarizer,
    sequence length and network as they were (only the embedding's
    vocabulary, rebuilt at line 103, may have changed); in both cases
    nothing is handed to the framework. *)
Theorem fit_early_failure S build_model x y xv yv bs epochs cw kw st :
  (length x ≠ length y →
   fit S build_model x y xv yv bs epochs cw kw st = (st, [], Err AssertionError)) ∧
  (∀ st1 e, length x = length y →
   build_token2id_label2id_dict S st x y xv yv = (st1, Err e) →
   fit S build_model x y xv yv bs epochs cw kw st = (st1, [], Err e) ∧
   (st1 = st ∨ ∃ vocab, st1 = set_token2idx st vocab)).
Proof.
  split.
  - intros Hne. unfold fit. rewrite fitM_bind_unfold. simpl.
    by rewrite (decide_False _ _ Hne).
  - intros st1 e Heq Hb. split.
    + unfold fit. rewrite (decide_True _ _ Heq).
      cbv [mbind fitM_bind lift get_st put_st]. rewrite Hb. reflexivity.
    + unfold build_token2id_label2id_dict in Hb.
      destruct (join_targets _ _ _); [|injection Hb as <-; by left].
      destruct (build_token2idx_dict st _ _ _) as [vocab|];
        [|injection Hb as <-; by left].
      right. exists vocab.
      destruct (observed_labels _ _); injection Hb as <-; done.
Qed.

Lemma fitM_bind_Ok_inv {A B} (m : fitM A) (f : A → fitM B) st st' evs b :
  (m ≫= f) st = (st', evs, Ok b) →
  ∃ st1 ev1 a ev2, m st = (st1, ev1, Ok a) ∧ f a st1 = (st', ev2, Ok b) ∧
                   evs = ev1 ++ ev2.
Proof.
  rewrite fitM_bind_unfold.
  destruct (m st) as [[st1 ev1] [a|e]]; [|discriminate].
  destruct (f a st1) as [[st2 ev2] r] eqn:Hf. intros [= <- <- ->].
  by exists st1, ev1, a, ev2.
Qed.

Lemma ensure_model_no_events build_model x st st' evs r :
  ensure_model build_model x st = (st', evs, r) → evs = [].
Proof.
  intros H. pose proof (ensure_model_emits_nothing build_model x (λ _, False) st) as Hf.
  rewrite H in Hf. simpl in Hf. destruct evs as [|ev evs]; [done|].
  by apply Forall_cons in Hf as [[] _].
Qed.

Ltac fit_inv H :=
  repeat match type of H with
  | (_ ≫= _) _ = (_, _, Ok _) =>
      let st1 := fresh "st" in let ev1 := fresh "ev" in let a := fresh "a" in
      let ev2 := fresh "ev" in let H1 := fresh "H" in let H2 := fresh "H" in
      let Hev := fresh "Hev" in
      apply fitM_bind_Ok_inv in H as (st1 & ev1 & a & ev2 & H1 & H & Hev);
      fit_inv H1
  | lift _ _ = _ => cbv [lift] in H; injection H as ?; subst
  | get_st _ = _ => cbv [get_st] in H; injection H as ?; subst
  | put_st _ _ = _ => cbv [put_st] in H; injection H as ?; subst
  | emit _ _ = _ => cbv [emit] in H; injection H as ?; subst
  | mret _ _ = _ => cbv [mret fitM_ret] in H; injection H as ?; subst
  end.

Lemma dict_keys_set_sub {K V} `{EqDecision K} (d : pydict K V) k k' v :
  k ∈ dict_keys d → k ∈ dict_keys (dict_set d k' v).
Proof.
  induction d as [|[k0 v0] d IH]; simpl; [by intros ?%elem_of_nil|].
  destruct (decide (k' = k0)); simpl; rewrite !elem_of_cons; naive_solver.
Qed.

(** X9: a [fit] call that raises nothing uses a non-zero batch size [b]
    (the given one, or [len(x_train) // 2] when it exceeds the number of
    training examples) and hands the framework exactly: the training
    generator, the validation generator when [x_validate] is non-empty,
    and [fit_generator] with [steps_per_epoch = len(x_train) // b] and
    the caller's [fit_kwargs] (or none), over which [validation_data]
    and [validation_steps = max(len(x_validate) // b, 1)] are written
    when [x_validate] is non-empty; the caller's [fit_kwargs] then has
    none of the keywords [steps_per_epoch], [epochs], [class_weight]
    that [fit] passes itself. *)
Theorem fit_success_trace S build_model x y xv yv bs epochs cw kw st st' evs :
  fit S build_model x y xv yv bs epochs cw kw st = (st', evs, Ok ()) →
  fit_batch_size (length x) bs ≠ 0%nat ∧
  evs = fit_trace (length x) xv (fit_batch_size (length x) bs) epochs kw ∧
  ∀ k, k ∈ fit_generator_keywords →
       k ∉ dict_keys (match kw with Some d => d | None => [] end).
Proof.
  intros H. unfold fit in H. fold (fit_batch_size (length x) bs) in H.
  set (b := fit_batch_size (length x) bs) in *. clearbody b.
  fit_inv H.
  destruct (build_token2id_label2id_dict _ _ _ _ _ _) as [st1 r] in H.
  fit_inv H.
  apply ensure_model_no_events in H0 as ->.
  apply py_floordiv_Ok in H6 as [Hb ->].
  assert (Hk : ∀ k, k ∈ fit_generator_keywords → k ∉ dict_keys a3).
  { intros k Hk Hin. unfold fit_generator_keywords in Hk.
    rewrite !elem_of_cons, elem_of_nil in Hk.
    destruct Hk as [->|[->|[->|[]]]];
      rewrite (bool_decide_eq_true_2 _ Hin) in H7;
      rewrite ?orb_true_l, ?orb_true_r, ?orb_true_l in H7; discriminate. }
  assert (ev2 = []) as ->. { destruct cw; fit_inv H3; done. }
  split; [done|].
  unfold fit_trace, fit_kwargs_passed.
  destruct xv as [[|v xv]|]; fit_inv H1; simpl.
  - split; [done|exact Hk].
  - match goal with H : py_floordiv _ _ = Ok _ |- _ => apply py_floordiv_Ok in H as [_ ->] end.
    split; [done|]. intros k Hk' Hin. apply (Hk k Hk').
    by do 2 apply dict_keys_set_sub.
  - split; [done|exact Hk].
Qed.

Lemma fit_success_trace_witness :
  fit_batch_size (length x_ten) 64 ≠ 0%nat ∧
  [EvTrainGenerator 5; EvValidationGenerator 5; EvFitGenerator 2 5 [("validation_data", KwGenerator 5); ("validation_steps", KwSteps 1)]]
  = fit_trace (length x_ten) (Some [["v"]]) (fit_batch_size (length x_ten) 64) 5 None ∧
  ∀ k, k ∈ fit_generator_keywords → k ∉ dict_keys (@nil (string * kwarg)).
Proof.
  apply (fit_success_trace set_order_example build_model_ok x_ten y_ten
           (Some [["v"]]) (Some [TStr "neg"]) 64 5 false None st_example
           (mk_clf false [("neg", 0); ("pos", 1)] [(0, "neg"); (1, "pos")]
              (Some ["neg"; "pos"]) 3 false true false [] vocab_fixed)).
  vm_compute. reflexivity.
Defined.

Lemma ensure_model_skips build_model1 build_model2 x st :
  st.(model_built) = true →
  ensure_model build_model1 x st = ensure_model build_model2 x st.
Proof.
  intros H. unfold ensure_model. cbv [mbind fitM_bind get_st]. by rewrite H.
Qed.

Lemma build_keeps_model_built S st x y xv yv st1 :
  build_token2id_label2id_dict S st x y xv yv = (st1, Ok ()) →
  st1.(model_built) = st.(model_built).
Proof.
  intros Hb. by destruct (build_label_index_shape S st x y xv yv st1 Hb)
    as (? & ? & _ & _ & ? & _ & ->).
Qed.

(** X10: once a model is built, [fit] never calls [build_model] again
    (the outcome is the same for any [build_model]), and the model state
    it leaves, the one it hands to [fit_generator], is the one with the
    freshly rebuilt label index, its sequence length untouched. *)
Theorem fit_built_model S build_model1 build_model2 x y xv yv bs epochs cw kw st :
  st.(model_built) = true →
  fit S build_model1 x y xv yv bs epochs cw kw st
  = fit S build_model2 x y xv yv bs epochs cw kw st ∧
  ∀ st1, length x = length y →
    build_token2id_label2id_dict S st x y xv yv = (st1, Ok ()) →
    (fit S build_model1 x y xv yv bs epochs cw kw st).1.1 = st1.
Proof.
  intros Hm. split.
  - unfold fit. destruct (decide (length x = length y)); [|reflexivity].
    cbv [mbind fitM_bind lift get_st put_st].
    destruct (build_token2id_label2id_dict S st x y xv yv) as [st1 [[]|err]] eqn:Hb;
      cbv beta iota; [|reflexivity].
    rewrite (ensure_model_skips build_model1 build_model2); [reflexivity|].
    by rewrite (build_keeps_model_built S st x y xv yv st1 Hb).
  - intros st1 Hlen Hb.
    rewrite (fit_final_state S build_model1 x y xv yv bs epochs cw kw st st1 Hlen Hb).
    apply ensure_model_built. by rewrite (build_keeps_model_built S st x y xv yv st1 Hb).
Qed.

Lemma fit_built_model_witness :
  fit set_order_example (λ _, Err HookError) x_ten y_ten None None
    64 5 false None (mk_clf false [] [] None 3 false true false [] vocab_fixed)
  = fit set_order_example build_model_ok x_ten y_ten None None
      64 5 false None (mk_clf false [] [] None 3 false true false [] vocab_fixed) ∧
  ∀ st1, length x_ten = length y_ten →
    build_token2id_label2id_dict set_order_example
      (mk_clf false [] [] None 3 false true false [] vocab_fixed) x_ten y_ten None None = (st1, Ok ()) →
    (fit set_order_example (λ _, Err HookError) x_ten y_ten None None
       64 5 false None (mk_clf false [] [] None 3 false true false [] vocab_fixed)).1.1 = st1.
Proof.
  exact (fit_built_model set_order_example (λ _, Err HookError)
           build_model_ok x_ten y_ten None None 64 5 false None
           (mk_clf false [] [] None 3 false true false [] vocab_fixed) eq_refl).
Defined.

Lemma ensure_model_labels build_model x st :
  let st' := (ensure_model build_model x st).1.1 in
  st'.(multi_label) = st.(multi_label) ∧ st'.(label2idx) = st.(label2idx) ∧
  st'.(idx2label) = st.(idx2label) ∧ st'.(mlb_classes) = st.(mlb_classes).
Proof.
  unfold ensure_model. cbv [mbind fitM_bind get_st put_st lift mret fitM_ret].
  repeat case_match; simplify_eq/=; done.
Qed.

(** X11: every [fit] call that gets past the assertion rebuilds the label
    index, also on a model that is already built: the model state it
    leaves (the one it hands to [fit_generator] when nothing raises before
    the call), whether or not a later step raises, has the label index, the reverse
    index and the binarizer classes of this call's
    [build_token2id_label2id_dict]. *)
Theorem fit_rebuilds_label_index S build_model x y xv yv bs epochs cw kw st st1 :
  length x = length y →
  build_token2id_label2id_dict S st x y xv yv = (st1, Ok ()) →
  let st' := (fit S build_model x y xv yv bs epochs cw kw st).1.1 in
  st'.(label2idx) = st1.(label2idx) ∧ st'.(idx2label) = st1.(idx2label) ∧
  st'.(mlb_classes) = st1.(mlb_classes).
Proof.
  intros Hlen Hb st'. subst st'.
  rewrite (fit_final_state S build_model x y xv yv bs epochs cw kw st st1 Hlen Hb).
  destruct (ensure_model_labels build_model x st1) as (_ & H1 & H2 & H3).
  done.
Qed.

Lemma fit_rebuilds_label_index_witness :
  let st' := (fit set_order_example build_model_ok x_ten y_ten None None 64 5 false None
                st_built_example).1.1 in
  st'.(label2idx) = [("pos", 0)] ∧ st'.(idx2label) = [(0, "pos")] ∧
  st'.(mlb_classes) = Some ["pos"].
Proof.
  exact (fit_rebuilds_label_index set_order_example build_model_ok x_ten y_ten
           None None 64 5 false None st_built_example
           (mk_clf false [("pos", 0)] [(0, "pos")] (Some ["pos"]) 3 false false false [] vocab_fixed)
           eq_refl ltac:(vm_compute; reflexivity)).
Defined.

(** ** [get_data_generator] *)

Lemma pages_prefix {A} (x : list A) b k :
  (k * b ≤ length x)%nat →
  mjoin (map (λ p, py_slice x (p * b) (p * b + b)) (seq 0 k)) = take (k * b) x.
Proof.
  induction k as [|k IH]; intros Hk; [done|].
  rewrite seq_S, map_app, join_app, IH by lia. simpl. rewrite app_nil_r.
  unfold py_slice. replace (k * b + b - k * b)%nat with b by lia.
  rewrite take_take_drop. f_equal. lia.
Qed.

(** X12: one pass of the generator over a shuffle of [page_list] (with
    a batch size [b > 0]) selects every example exactly once, and the
    first [b] examples once more when [b] divides the number of
    examples (the empty last page replaced by the first page). *)
Theorem generator_pass_examples {A B} (x : list A) (y : list B) b pl perm :
  page_list (length x) b = Ok pl → perm ≡ₚ pl →
  mjoin (map (λ p, (select_page x y b p).1) perm)
  ≡ₚ x ++ (if decide (length x mod b = 0)%nat then py_slice x 0 b else []).
Proof.
  intros Hpl Hperm.
  unfold page_list in Hpl. destruct (py_floordiv (length x) b) as [q|e] eqn:Hq;
    [|discriminate].
  apply py_floordiv_Ok in Hq as [Hb ->]. injection Hpl as <-.
  rewrite Hperm. clear perm Hperm.
  pose proof (Nat.div_mod_eq (length x) b) as Hdm.
  pose proof (Nat.mod_upper_bound (length x) b Hb) as Hmb.
  set (q := (length x / b)%nat) in *. set (r := (length x mod b)%nat) in *.
  rewrite Nat.add_1_r, seq_S, map_app, join_app. simpl. rewrite app_nil_r.
  assert (Hpre : mjoin (map (λ p, (select_page x y b p).1) (seq 0 q))
                 = take (q * b) x).
  { rewrite <- (pages_prefix x b q) by nia. f_equal. apply map_ext_in.
    intros p Hp. apply list_elem_of_In, elem_of_seq in Hp.
    unfold select_page. simpl. case_decide as He; [|done].
    exfalso. rewrite length_py_slice in He. nia. }
  rewrite Hpre. unfold select_page. simpl.
  case_decide as He; case_decide as Hr.
  - rewrite take_ge by nia. done.
  - exfalso. rewrite length_py_slice in He. nia.
  - exfalso. apply He. rewrite length_py_slice. nia.
  - rewrite app_nil_r. unfold py_slice.
    rewrite (take_ge (drop (q * b) x)) by (rewrite length_drop; nia).
    simpl. by rewrite take_drop.
Qed.

Lemma generator_pass_examples_witness :
  mjoin (map (λ p, (select_page x_three y_three 2 p).1) [1; 0]%nat)
  ≡ₚ x_three ++ (if decide (length x_three mod 2 = 0)%nat
                 then py_slice x_three 0 2 else []).
Proof.
  apply (generator_pass_examples x_three y_three 2 [0; 1]%nat [1; 0]%nat).
  - vm_compute. reflexivity.
  - apply Permutation_swap.
Defined.

Lemma py_map_Forall2 {A B} (f : A → result B) xs ys :
  py_map f xs = Ok ys → Forall2 (λ x y, f x = Ok y) xs ys.
Proof.
  revert ys. induction xs as [|x xs IH]; intros ys H; simpl in H.
  - injection H as <-. constructor.
  - destruct (f x) as [y|e] eqn:Hf; [|discriminate]. simpl in H.
    destruct (py_map f xs) as [ys'|e] eqn:Hr; [|discriminate].
    injection H as <-. constructor; [done|]. by apply IH.
Qed.

Lemma one_hot_row n i row :
  one_hot n i = Ok row →
  length row = n ∧
  ∀ k, (k < n)%nat →
       row !! k = Some (if decide (Z.of_nat k = i mod Z.of_nat n) then 1 else 0).
Proof.
  unfold one_hot. case_decide as Hi; [|discriminate]. intros [= <-].
  rewrite length_map, length_seq. split; [done|].
  intros k Hk. rewrite list_lookup_fmap, lookup_seq_lt by done. simpl.
  assert (Hj : (if decide (i < 0) then i + Z.of_nat n else i) = i mod Z.of_nat n).
  { case_decide.
    - rewrite <- (Z.mod_add i 1 (Z.of_nat n)) by lia.
      rewrite Z.mod_small; lia.
    - rewrite Z.mod_small; lia. }
  by rewrite Hj.
Qed.

(** X13: in single-label mode every label row of a batch the generator
    builds is the one-hot row of the target's id: it has
    [len(label2idx)] entries, with a 1 at the id (a negative id counting
    from the end) and 0 elsewhere. *)
Theorem single_label_batch_one_hot tok st tx ty bert bt :
  st.(multi_label) = false →
  make_batch tok st tx ty bert = Ok bt →
  Forall2 (λ t row, ∀ s, t = TStr s →
             ∃ i, dict_get st.(label2idx) s = Ok i ∧
                  length row = length st.(label2idx) ∧
                  ∀ k, (k < length st.(label2idx))%nat →
                       row !! k = Some (if decide (Z.of_nat k =
                                          i mod Z.of_nat (length st.(label2idx)))
                                        then 1 else 0))
    ty bt.(batch_y).
Proof.
  intros Hm. unfold make_batch. rewrite Hm. cbv [mbind result_bind].
  destruct (pad_sequences _ _) as [px|e]; [|discriminate].
  destruct (py_map _ ty) as [ls|e] eqn:Hls; [|discriminate].
  unfold convert_label_to_idx.
  destruct (py_map (dict_get st.(label2idx)) ls) as [ids|e] eqn:Hids; [|discriminate].
  simpl.
  destruct (decide (length (label2idx st) = 0%nat)) as [H0|H0].
  { apply nil_length_inv in H0. rewrite H0 in Hids |- *.
    destruct ls as [|l ls]; simpl in Hids; [|discriminate].
    injection Hids as <-. unfold to_categorical. simpl. discriminate. }
  rewrite to_categorical_classes by done.
  destruct (py_map (one_hot _) ids) as [rows|e] eqn:Hrows; [|discriminate].
  intros [= <-]. simpl.
  apply py_map_Forall2 in Hls, Hids, Hrows.
  revert ls ids rows Hls Hids Hrows.
  induction ty as [|t ty IH]; intros ls ids rows Hls Hids Hrows.
  - apply Forall2_nil_inv_l in Hls as ->. apply Forall2_nil_inv_l in Hids as ->.
    apply Forall2_nil_inv_l in Hrows as ->. constructor.
  - apply Forall2_cons_inv_l in Hls as (l & ls' & Hl & Hls & ->).
    apply Forall2_cons_inv_l in Hids as (i & ids' & Hi & Hids & ->).
    apply Forall2_cons_inv_l in Hrows as (row & rows' & Hrow & Hrows & ->).
    constructor; [|exact (IH ls' ids' rows' Hls Hids Hrows)].
    intros s ->. injection Hl as <-. exists i. split; [done|].
    by apply one_hot_row.
Qed.

Lemma single_label_batch_one_hot_witness :
  Forall2 (λ t row, ∀ s, t = TStr s →
             ∃ i, dict_get st_three.(label2idx) s = Ok i ∧
                  length row = length st_three.(label2idx) ∧
                  ∀ k, (k < length st_three.(label2idx))%nat →
                       row !! k = Some (if decide (Z.of_nat k =
                                          i mod Z.of_nat (length st_three.(label2idx)))
                                        then 1 else 0))
    y_three [[1; 0]; [0; 1]; [1; 0]].
Proof.
  exact (single_label_batch_one_hot tokenize_example st_three x_three y_three false
           (mk_batch (XPlain [[1; 0; 0]; [1; 0; 0]; [1; 0; 0]])
              [[1; 0]; [0; 1]; [1; 0]])
           eq_refl ltac:(vm_compute; reflexivity)).
Defined.

(** ** [predict] *)

Lemma py_map_length {A B} (f : A → result B) xs ys :
  py_map f xs = Ok ys → length ys = length xs.
Proof. intros H. symmetry. eapply Forall2_length, py_map_Forall2, H. Qed.

Lemma py_map2_length {A B C} (f : A → B → result C) xs ys zs :
  py_map2 f xs ys = Ok zs → length zs = length xs.
Proof.
  revert ys zs. induction xs as [|x xs IH]; intros ys zs H; simpl in H.
  - by injection H as <-.
  - destruct ys as [|y ys]; [discriminate|].
    destruct (f x y) as [z|e]; [|discriminate]. simpl in H.
    destruct (py_map2 f xs ys) as [zs'|e] eqn:Hr; [|discriminate].
    injection H as <-. simpl. f_equal. by apply (IH ys).
Qed.

Lemma py_map_ESent (ss : list (list string)) :
  py_map (λ e, match e with ESent ws => Ok ws | EStr _ => Err TypeError end)
    (map ESent ss) = Ok ss.
Proof. induction ss as [|s ss IH]; simpl; [done|]. by rewrite IH. Qed.

Lemma predict_results_list st ss od res rs :
  length res = length ss →
  predict_results st (map ESent ss) true od res = Ok rs →
  length rs = length ss ∧
  (od = false → st.(multi_label) = false →
   Forall (λ r, ∃ i l, r = OLabel l ∧ dict_get st.(idx2label) i = Ok l) rs).
Proof.
  intros Hlen. unfold predict_results. destruct od.
  - unfold words_of. rewrite py_map_ESent. simpl.
    intros H. split; [exact (py_map2_length _ _ _ _ H)|done].
  - destruct (multi_label st).
    + destruct (mlb_classes st) as [cls|]; [|discriminate].
      destruct (mlb_fitted st); [|discriminate].
      intros H. split; [rewrite (py_map_length _ _ _ H); done|done].
    + cbv [mbind result_bind].
      destruct (py_map argmax res) as [ids|e] eqn:Hids; [|discriminate].
      unfold convert_idx_to_label.
      destruct (py_map (dict_get (idx2label st)) ids) as [ls|e] eqn:Hls;
        [|discriminate].
      simpl. intros [= <-]. rewrite length_map.
      split; [rewrite (py_map_length _ _ _ Hls), (py_map_length _ _ _ Hids); done|].
      intros _ _. apply Forall_forall. intros r Hr.
      apply list_elem_of_fmap in Hr as (l & -> & Hl).
      apply py_map_Forall2 in Hls.
      destruct (list_elem_of_lookup_1 _ _ Hl) as [n Hn].
      destruct (Forall2_lookup_r _ _ _ _ _ Hls Hn) as (i & _ & Hi).
      by exists i, l.
Qed.

Lemma predict_list_shape tok net st ss od t v :
  predict tok net st (map ESent ss) od t = Ok v →
  ∃ rs, v = OList rs ∧ length rs = length ss ∧
        (od = false → st.(multi_label) = false →
         Forall (λ r, ∃ i l, r = OLabel l ∧ dict_get st.(idx2label) i = Ok l) rs).
Proof.
  unfold predict. destruct ss as [|s ss']; [simpl; discriminate|].
  assert (Htok : tokenize_input tok (map ESent (s :: ss'))
                 = Ok (TokMany (map tok (s :: ss')))).
  { unfold tokenize_input. simpl map. rewrite <- (map_cons ESent s ss').
    rewrite py_map_ESent. done. }
  rewrite Htok. cbv [mbind result_bind]. simpl is_list_arg. cbv iota beta.
  destruct (pad_sequences _ _) as [padded|e] eqn:Hpad; [|discriminate].
  unfold pad_sequences in Hpad. apply py_map_length in Hpad.
  rewrite length_map in Hpad.
  set (res := if multi_label st then _ else _).
  assert (Hres : length res = length (s :: ss')).
  { subst res. destruct (multi_label st); rewrite ?length_map; done. }
  destruct (predict_results st _ true od res) as [rs|e] eqn:Hrs; [|discriminate].
  intros [= <-]. exists rs. split; [done|].
  exact (predict_results_list st (s :: ss') od res rs Hres Hrs).
Qed.

(** X14: [predict] on a list of tokenized sentences returns a list with
    one result per sentence; in single-label mode without [output_dict]
    each result is a label that [idx2label] holds. *)
Theorem predict_list_results tok net st ss od t v :
  predict tok net st (map ESent ss) od t = Ok v →
  ∃ rs, v = OList rs ∧ length rs = length ss ∧
        (od = false → st.(multi_label) = false →
         Forall (λ r, ∃ i l, r = OLabel l ∧ dict_get st.(idx2label) i = Ok l) rs).
Proof. apply predict_list_shape. Qed.

Lemma predict_list_results_witness :
  ∃ rs, OList [OLabel "pos"; OLabel "pos"] = OList rs ∧ length rs = length [["good"]; ["bad"]] ∧
        (false = false → st_built_example.(multi_label) = false →
         Forall (λ r, ∃ i l, r = OLabel l ∧ dict_get st_built_example.(idx2label) i = Ok l) rs).
Proof.
  apply (predict_list_results tokenize_example net_example st_built_example
           [["good"]; ["bad"]] false default_threshold).
  vm_compute. reflexivity.
Defined.

Lemma insert_by_score_perm a l : insert_by_score a l ≡ₚ a :: l.
Proof.
  induction l as [|b l IH]; simpl; [done|].
  destruct (SFltb _ _); [done|]. rewrite IH. apply Permutation_swap.
Qed.

Lemma sort_by_score_perm l : sort_by_score l ≡ₚ l.
Proof.
  unfold sort_by_score.
  assert (H : ∀ acc, fold_left (λ acc a, insert_by_score a acc) l acc ≡ₚ l ++ acc).
  { induction l as [|a l IH]; intros acc; simpl; [done|].
    rewrite IH, insert_by_score_perm. symmetry. apply Permutation_middle. }
  by rewrite H, app_nil_r.
Qed.

Lemma py_map_perm {A B} (f : A → result B) l1 l2 ys2 :
  l1 ≡ₚ l2 → py_map f l2 = Ok ys2 → ∃ ys1, py_map f l1 = Ok ys1 ∧ ys1 ≡ₚ ys2.
Proof.
  intros Hp. revert ys2. induction Hp as [|x l1 l2 Hp IH|x y l|l1 l2 l3 Hp1 IH1 Hp2 IH2];
    intros ys2 H.
  - by exists ys2.
  - simpl in H. destruct (f x) as [b|e] eqn:Hf; [|discriminate]. simpl in H.
    destruct (py_map f l2) as [ys|e]; [|discriminate]. injection H as <-.
    destruct (IH ys eq_refl) as (ys1 & H1 & Hp1).
    exists (b :: ys1). simpl. rewrite Hf, H1. simpl. split; [done|by rewrite Hp1].
  - simpl in H. destruct (f x) as [a|e] eqn:Hx; [|discriminate]. simpl in H.
    destruct (f y) as [b|e] eqn:Hy; [|discriminate]. simpl in H.
    destruct (py_map f l) as [ys|e] eqn:Hl; [|discriminate]. injection H as <-.
    exists (b :: a :: ys). simpl. rewrite Hx, Hy. simpl. rewrite Hl. simpl.
    split; [done|apply Permutation_swap].
  - destruct (IH2 ys2 H) as (ys & H2 & Hp2').
    destruct (IH1 ys H2) as (ys1 & H1 & Hp1').
    exists ys1. split; [done|by rewrite Hp1', Hp2'].
Qed.

Lemma candidates_in_order (d : pydict Z string) k res cs :
  py_map (λ r, name ← dict_get d (Z.of_nat r.1); Ok (mk_candidate name r.2))
    (zip (seq k (length res)) res) = Ok cs →
  Forall2 (λ i name, dict_get d (Z.of_nat i) = Ok name)
    (seq k (length res)) (map cand_name cs) ∧
  cs = zip_with mk_candidate (map cand_name cs) res.
Proof.
  revert k cs. induction res as [|x res IH]; intros k cs H; simpl in H.
  - injection H as <-. split; constructor.
  - destruct (dict_get d (Z.of_nat k)) as [name|e] eqn:Hd; [|discriminate].
    simpl in H.
    destruct (py_map _ (zip (seq (S k) (length res)) res)) as [cs'|e] eqn:Hr;
      [|discriminate].
    injection H as <-. destruct (IH (S k) cs' Hr) as [H1 H2].
    split; simpl; [by constructor|]. f_equal. exact H2.
Qed.

Lemma SFcompare_opp x y : SFcompare (SFopp x) (SFopp y) = SFcompare y x.
Proof.
  destruct x as [sx|sx| |sx mx ex], y as [sy|sy| |sy my ey];
    try destruct sx; try destruct sy; simpl; try reflexivity.
  all: rewrite (Z.compare_antisym ey ex); destruct (ex ?= ey)%Z; simpl; try reflexivity.
  all: destruct (ey ?= ex)%Z; simpl; try reflexivity.
  all: rewrite Pos.compare_cont_antisym; reflexivity.
Qed.

Lemma SFcompare_total x y :
  is_nan x = false → is_nan y = false → ∃ c, SFcompare x y = Some c.
Proof.
  destruct x as [sx|sx| |sx mx ex], y as [sy|sy| |sy my ey];
    simpl; try discriminate; intros _ _; eexists; reflexivity.
Qed.

Lemma score_before_after a b :
  is_nan a.2 = false → is_nan b.2 = false → (b.1 < a.1)%nat →
  SFltb (SFopp a.2) (SFopp b.2) = false → score_before b a.
Proof.
  intros Ha Hb Hi. unfold SFltb. rewrite SFcompare_opp. unfold score_before, SFltb, SFeqb.
  rewrite (SFcompare_swap a.2 b.2).
  destruct (SFcompare_total a.2 b.2 Ha Hb) as [[] ->]; simpl; try discriminate; auto.
Qed.

Lemma HdRel_insert_by_score b a l :
  score_before b a → HdRel score_before b l →
  HdRel score_before b (insert_by_score a l).
Proof.
  intros Hba Hl. destruct l as [|c l]; simpl; [by constructor|].
  destruct (SFltb _ _); constructor; [done|]. by inversion Hl.
Qed.

Lemma insert_by_score_sorted a l :
  is_nan a.2 = false →
  Forall (λ b, is_nan b.2 = false ∧ (b.1 < a.1)%nat) l →
  Sorted score_before l → Sorted score_before (insert_by_score a l).
Proof.
  intros Ha. induction l as [|b l IH]; intros Hl Hs; simpl.
  - by repeat constructor.
  - apply Forall_cons in Hl as [[Hb Hi] Hl].
    apply Sorted_inv in Hs as [Hs Hhd].
    destruct (SFltb (SFopp a.2) (SFopp b.2)) eqn:Hab.
    + constructor; [by constructor|]. constructor. left.
      unfold SFltb in *. by rewrite SFcompare_opp in Hab.
    + constructor; [by apply IH|].
      apply HdRel_insert_by_score; [|done].
      by apply score_before_after.
Qed.

Lemma sort_fold_sorted s res acc :
  Forall (λ x, is_nan x = false) res →
  Forall (λ b, is_nan b.2 = false ∧ (b.1 < s)%nat) acc →
  Sorted score_before acc →
  Sorted score_before
    (fold_left (λ acc a, insert_by_score a acc) (zip (seq s (length res)) res) acc).
Proof.
  revert s acc. induction res as [|x res IH]; intros s acc Hn Hacc Hs; simpl; [done|].
  apply Forall_cons in Hn as [Hx Hn]. apply IH; [done| |].
  - rewrite insert_by_score_perm.
    constructor; [simpl; split; [done|lia]|].
    eapply Forall_impl; [exact Hacc|]. simpl. intros b [? ?]. split; [done|lia].
  - by apply insert_by_score_sorted.
Qed.

(** X15: [_format_output_dic] raises IndexError on an empty score row.
    Otherwise its [class_candidates] come from a reordering [results] of
    the pairs [(i, res[i])]: each candidate has the label [idx2label[i]]
    of its pair (a KeyError when an index has no label) and its score as
    confidence, and its [class] is the first of them.  When no score is
    NaN, [results] is sorted by decreasing score, equal scores keeping
    the order of their indices (the sort is stable). *)
Theorem format_output_candidates st words :
  format_output_dic st words [] = Err IndexError ∧
  ∀ res out, format_output_dic st words res = Ok out →
  ∃ results c cs,
    out = ODict words c (c :: cs) ∧
    results ≡ₚ zip (seq 0 (length res)) res ∧
    Forall2 (λ r cand, dict_get st.(idx2label) (Z.of_nat r.1) = Ok cand.(cand_name) ∧
                       cand.(cand_confidence) = r.2) results (c :: cs) ∧
    (Forall (λ x, is_nan x = false) res → Sorted score_before results).
Proof.
  split; [reflexivity|]. intros res out. unfold format_output_dic.
  destruct (py_map _ (sort_by_score _)) as [cands|e] eqn:Hc; [|discriminate].
  simpl. destruct cands as [|c cs]; [discriminate|]. intros [= <-].
  exists (sort_by_score (zip (seq 0 (length res)) res)), c, cs. split_and!.
  - done.
  - apply sort_by_score_perm.
  - apply py_map_Forall2 in Hc. eapply Forall2_impl; [exact Hc|].
    intros [i x] cand H. simpl in H.
    destruct (dict_get _ _) as [name|e]; [|discriminate].
    simpl in H. injection H as <-. done.
  - intros Hn. unfold sort_by_score. apply sort_fold_sorted; [done|constructor|constructor].
Qed.

(** ** [evaluate] *)

Lemma py_index_lt {A} (xs : list A) (i : nat) :
  (i < length xs)%nat → ∃ a, py_index xs (Z.of_nat i) = Ok a.
Proof.
  intros Hi. unfold py_index. cbv zeta.
  destruct (decide (Z.of_nat i < 0)); [lia|].
  rewrite decide_True by lia. rewrite Nat2Z.id.
  destruct (lookup_lt_is_Some_2 xs i Hi) as [a ->]. by exists a.
Qed.

(** X17: the debug sample of [evaluate] never raises on a list of at
    least 5 tokenized sentences with as many targets, when the sampled
    indices are in range: [debug_info] then changes nothing in the
    outcome. *)
Theorem evaluate_debug_safe tok net report st ss y sample :
  length y = length ss → (5 ≤ length ss)%nat →
  Forall (λ i, i < length ss)%nat sample →
  evaluate tok net report st (map ESent ss) y true sample
  = evaluate tok net report st (map ESent ss) y false sample.
Proof.
  intros Hy H5 Hs. unfold evaluate.
  destruct (predict tok net st (map ESent ss) false default_threshold) as [v|e]
    eqn:Hp; [|reflexivity].
  destruct (predict_list_shape tok net st ss false default_threshold v Hp)
    as (rs & -> & Hrs & _).
  simpl. destruct (report y (OList rs)) as [[]|e]; [|reflexivity]. simpl.
  rewrite length_map, decide_False by lia.
  destruct (py_map_all_Ok (λ index, _ ← py_index (map ESent ss) (Z.of_nat index);
                _ ← py_index y (Z.of_nat index);
                _ ← py_index rs (Z.of_nat index); Ok ()) (λ _, True) sample)
    as (us & Hus & _).
  { intros i Hi. rewrite Forall_forall in Hs. pose proof (Hs i Hi) as Hlt.
    destruct (py_index_lt (map ESent ss) i) as [a Ha]; [by rewrite length_map|].
    destruct (py_index_lt y i) as [b Hb]; [lia|].
    destruct (py_index_lt rs i) as [c Hc]; [lia|].
    exists (). rewrite Ha. simpl. rewrite Hb. simpl. rewrite Hc. done. }
  rewrite Hus. reflexivity.
Qed.

Lemma evaluate_debug_safe_witness :
  evaluate tokenize_example net_example (λ _ _, Ok ()) st_built_example
    (map ESent [["a"]; ["b"]; ["c"]; ["d"]; ["e"]]) (replicate 5 (TStr "pos")) true
    [4; 0; 2; 1; 3]%nat
  = evaluate tokenize_example net_example (λ _ _, Ok ()) st_built_example
      (map ESent [["a"]; ["b"]; ["c"]; ["d"]; ["e"]]) (replicate 5 (TStr "pos")) false
      [4; 0; 2; 1; 3]%nat.
Proof.
  apply evaluate_debug_safe; [reflexivity|simpl; lia|].
  repeat constructor; simpl; lia.
Defined.

(** ** [load_data_and_label] of the CNN script *)

Lemma drop_while_app_all {A} (p : A → bool) pre l :
  Forall (λ c, p c = true) pre → drop_while p (pre ++ l) = drop_while p l.
Proof. induction 1 as [|c pre Hc _ IH]; simpl; [done|]. by rewrite Hc. Qed.

Lemma drop_while_all {A} (p : A → bool) l :
  Forall (λ c, p c = true) l → drop_while p l = [].
Proof. intros H. rewrite <- (app_nil_r l). by rewrite drop_while_app_all. Qed.

Lemma drop_while_app_stop {A} (p : A → bool) l post c :
  c ∈ l → p c = false → drop_while p (l ++ post) = drop_while p l ++ post.
Proof.
  intros Hc Hp. induction l as [|c' l IH]; [by apply not_elem_of_nil in Hc|].
  simpl. destruct (p c') eqn:Hc'; [|done].
  apply elem_of_cons in Hc as [->|Hc]; [congruence|]. by apply IH.
Qed.

Lemma all_or_stop {A} (p : A → bool) l :
  Forall (λ c, p c = true) l ∨ ∃ c, c ∈ l ∧ p c = false.
Proof.
  induction l as [|c l [IH|(c' & Hc' & Hp)]]; [by left| |].
  - destruct (p c) eqn:Hc; [left; by constructor|right].
    exists c. split; [apply in_list_head|done].
  - right. exists c'. split; [by right|done].
Qed.

Lemma py_strip_pad pre cs post :
  Forall (λ c, is_py_space c = true) pre →
  Forall (λ c, is_py_space c = true) post →
  py_strip (String.string_of_list_ascii (pre ++ cs ++ post))
  = py_strip (String.string_of_list_ascii cs).
Proof.
  intros Hpre Hpost. unfold py_strip.
  rewrite !String.list_ascii_of_string_of_list_ascii.
  rewrite drop_while_app_all by done.
  destruct (all_or_stop is_py_space cs) as [Hall|(c & Hc & Hp)].
  - rewrite (drop_while_all _ (cs ++ post)) by (by apply Forall_app).
    by rewrite (drop_while_all _ cs).
  - rewrite (drop_while_app_stop _ cs post c Hc Hp), rev_app_distr.
    rewrite drop_while_app_all; [done|]. by apply Forall_rev.
Qed.

(** X18: [load_data_and_label] segments a line the same way whatever
    whitespace surrounds it ([line.strip()] before [jieba.cut]), for
    instance the line break [readlines] keeps; whitespace is what
    [str.isspace] accepts among the characters 0-255 a [string] holds. *)
Theorem segment_line_strips jieba_cut pre s post :
  Forall (λ c, is_py_space c = true) pre →
  Forall (λ c, is_py_space c = true) post →
  segment_line jieba_cut
    (String.string_of_list_ascii (pre ++ String.list_ascii_of_string s ++ post))
  = segment_line jieba_cut s.
Proof.
  intros Hpre Hpost. unfold segment_line. rewrite py_strip_pad by done.
  by rewrite String.string_of_list_ascii_of_string.
Qed.

Lemma segment_line_strips_witness :
  segment_line (λ s, [s])
    (String.string_of_list_ascii
       ([Ascii.ascii_of_nat 32] ++ String.list_ascii_of_string "good" ++
        [Ascii.ascii_of_nat 13; Ascii.ascii_of_nat 10]))
  = segment_line (λ s, [s]) "good".
Proof.
  apply segment_line_strips; repeat constructor.
Defined.

(** ** [load_glove_model] and [word_embedding] of the CNN script *)

Lemma py_index_0 {A} (xs : list A) a : py_index xs 0 = Ok a → ∃ xs', xs = a :: xs'.
Proof.
  unfold py_index. destruct xs as [|x xs']; simpl; [discriminate|].
  intros [= ->]. by exists xs'.
Qed.

Lemma load_glove_snoc {R} (parse_float : string → result R) lines line :
  load_glove_model parse_float (lines ++ [line])
  = (embeddings_index ← load_glove_model parse_float lines;
     let values := py_split line in
     word ← py_index values 0;
     coefs ← py_map parse_float (drop 1 values);
     Ok (dict_set embeddings_index word coefs)).
Proof. unfold load_glove_model. by rewrite fold_left_app. Qed.

Lemma load_glove_Err {R} (parse_float : string → result R) lines e :
  fold_left (λ acc line,
      embeddings_index ← acc;
      let values := py_split line in
      word ← py_index values 0;
      coefs ← py_map parse_float (drop 1 values);
      Ok (dict_set embeddings_index word coefs)) lines (Err e) = Err e.
Proof. induction lines as [|l lines IH]; simpl; [done|]. exact IH. Qed.

(** X19: a line of the GloVe file with no word (empty or blank) makes
    [load_glove_model] raise IndexError at [values[0]].  When it raises
    nothing, a word's vector is the one parsed from the last line that
    starts with that word, and a word no line starts with is missing. *)
Theorem load_glove_last_line_wins {R} (parse_float : string → result R) :
  (∀ pre line post d,
     load_glove_model parse_float pre = Ok d → py_split line = [] →
     load_glove_model parse_float (pre ++ line :: post) = Err IndexError) ∧
  (∀ lines d, load_glove_model parse_float lines = Ok d →
   ∀ w v, dict_get d w = Ok v ↔
     ∃ pre line post vals,
       lines = pre ++ line :: post ∧ py_split line = w :: vals ∧
       py_map parse_float vals = Ok v ∧
       ∀ l', l' ∈ post → head (py_split l') ≠ Some w).
Proof.
  split.
  - intros pre line post d Hd Hl.
    replace (pre ++ line :: post) with ((pre ++ [line]) ++ post)
      by by rewrite <- app_assoc.
    unfold load_glove_model at 1. rewrite fold_left_app.
    fold (load_glove_model parse_float (pre ++ [line])).
    rewrite load_glove_snoc, Hd. simpl. rewrite Hl. simpl.
    apply load_glove_Err.
  - intros lines. induction lines as [|l lines IH] using rev_ind; intros d Hd w v.
    + injection Hd as <-. simpl. split; [discriminate|].
      intros (pre & line & post & vals & Heq & _). by destruct pre.
    + rewrite load_glove_snoc in Hd.
      destruct (load_glove_model parse_float lines) as [d0|e]; [|discriminate].
      simpl in Hd.
      destruct (py_index (py_split l) 0) as [w0|e] eqn:Hw0; [|discriminate].
      simpl in Hd. apply py_index_0 in Hw0 as (vals0 & Hsplit).
      rewrite Hsplit in Hd. simpl in Hd. rewrite drop_0 in Hd.
      destruct (py_map parse_float vals0) as [c0|e] eqn:Hc0; [|discriminate].
      simpl in Hd. injection Hd as <-.
      rewrite dict_get_set. specialize (IH d0 eq_refl w v).
      assert (Hsplit_eq : ∀ pre line post,
                lines ++ [l] = pre ++ line :: post →
                (post = [] ∧ pre = lines ∧ line = l) ∨
                ∃ post', post = post' ++ [l] ∧ lines = pre ++ line :: post').
      { intros pre line post Heq. destruct post as [|x post''] using rev_ind.
        - left. apply app_inj_tail in Heq as [-> ->]. done.
        - right. exists post''.
          rewrite app_comm_cons, app_assoc in Heq.
          apply app_inj_tail in Heq as [Heq ->]. split; [done|]. done. }
      case_decide as Hw.
      * subst w. split.
        -- intros [= <-]. exists lines, l, [], vals0. split_and!; try done.
           intros l' Hl'. by apply not_elem_of_nil in Hl'.
        -- intros (pre & line & post & vals & Heq & Hs & Hv & Hpost).
           destruct (Hsplit_eq pre line post Heq) as [(-> & -> & ->)|(post' & -> & _)].
           ++ rewrite Hsplit in Hs. injection Hs as <-. congruence.
           ++ exfalso. apply (Hpost l); [apply elem_of_app; right; apply in_list_head|].
              by rewrite Hsplit.
      * rewrite IH. split.
        -- intros (pre & line & post & vals & -> & Hs & Hv & Hpost).
           exists pre, line, (post ++ [l]), vals. split_and!; try done.
           ++ by rewrite <- app_assoc.
           ++ intros l' Hl'. apply elem_of_app in Hl' as [Hl'|Hl']; [by apply Hpost|].
              apply list_elem_of_singleton in Hl' as ->. rewrite Hsplit. simpl.
              congruence.
        -- intros (pre & line & post & vals & Heq & Hs & Hv & Hpost).
           destruct (Hsplit_eq pre line post Heq) as [(-> & -> & ->)|(post' & -> & Hl)].
           ++ rewrite Hsplit in Hs. injection Hs as -> _. done.
           ++ exists pre, line, post', vals. split_and!; try done.
              intros l' Hl'. apply Hpost. apply elem_of_app. by left.
Qed.

Lemma word_embedding_fold {R} (zero : R) dim (emb : pydict string (list R)) N ws P m0 :
  length m0 = N →
  (∀ (j : nat) row, m0 !! j = Some row →
     (row = replicate dim zero ∧
      ∀ w, (w, Z.of_nat j) ∈ P → ∃ e, dict_get emb w = Err e) ∨
     (∃ w, (w, Z.of_nat j) ∈ P ∧ dict_get emb w = Ok row)) →
  Forall (λ p, 0 <= p.2 < Z.of_nat N) ws →
  (∀ w i v, (w, i) ∈ ws → dict_get emb w = Ok v → length v = dim) →
  ∃ m, fold_left (λ acc wi,
         embedding_matrix ← acc;
         match dict_get emb wi.1 with
         | Ok embedding_vector =>
             set_matrix_row dim embedding_matrix wi.2 embedding_vector
         | Err _ => Ok embedding_matrix
         end) ws (Ok m0) = Ok m ∧
       length m = N ∧
       ∀ (j : nat) row, m !! j = Some row →
         (row = replicate dim zero ∧
          ∀ w, (w, Z.of_nat j) ∈ P ++ ws → ∃ e, dict_get emb w = Err e) ∨
         (∃ w, (w, Z.of_nat j) ∈ P ++ ws ∧ dict_get emb w = Ok row).
Proof.
  revert P m0. induction ws as [|[w i] ws IH]; intros P m0 Hlen Hinv Hrange Hdim.
  - exists m0. rewrite app_nil_r. done.
  - apply Forall_cons in Hrange as [Hi Hrange]. simpl in Hi.
    replace (P ++ (w, i) :: ws) with ((P ++ [(w, i)]) ++ ws)
      by by rewrite <- app_assoc.
    simpl. destruct (dict_get emb w) as [v|e] eqn:Hw.
    + assert (Hv : length v = dim) by (apply (Hdim w i v); [apply in_list_head|done]).
      unfold set_matrix_row. cbv zeta. rewrite Hlen.
      destruct (decide (- Z.of_nat N <= i < Z.of_nat N)); [|lia].
      destruct (decide (i < 0)); [lia|]. rewrite decide_True by done.
      apply IH.
      * by rewrite length_insert.
      * intros j row Hj. apply list_lookup_insert_Some in Hj
          as [(<- & <- & _)|(Hne & Hj)].
        -- right. exists w. split; [|done]. apply elem_of_app. right.
           rewrite Z2Nat.id by lia. apply in_list_head.
        -- destruct (Hinv j row Hj) as [[Hz Hmiss]|(w' & Hw' & Hrow)].
           ++ left. split; [done|]. intros w' Hw'.
              apply elem_of_app in Hw' as [Hw'|Hw']; [by apply Hmiss|].
              apply list_elem_of_singleton in Hw'. injection Hw' as -> Hji.
              exfalso. apply Hne. lia.
           ++ right. exists w'. split; [|done]. apply elem_of_app. by left.
      * done.
      * intros w' i' v' Hin. apply (Hdim w' i'). by right.
    + apply IH; [done| |done|].
      * intros j row Hj. destruct (Hinv j row Hj) as [[Hz Hmiss]|(w' & Hw' & Hrow)].
        -- left. split; [done|]. intros w' Hw'.
           apply elem_of_app in Hw' as [Hw'|Hw']; [by apply Hmiss|].
           apply list_elem_of_singleton in Hw'. injection Hw' as -> _. by exists e.
        -- right. exists w'. split; [|done]. apply elem_of_app. by left.
      * intros w' i' v' Hin. apply (Hdim w' i'). by right.
Qed.

(** X20: when the ids of [word_index] lie in [0, len(word_index)] and
    every vector found for a word has [embedding_dim] entries,
    [word_embedding] builds a matrix of [len(word_index) + 1] rows
    without raising.  Each row is either all zeros, with no word of that
    id found in [embeddings_index], or the vector found for a word of
    that id; row 0 is all zeros when the ids start at 1. *)
Theorem word_embedding_rows {R} (zero : R) dim word_index embeddings_index :
  Forall (λ p, 0 <= p.2 <= Z.of_nat (length word_index)) word_index →
  (∀ w i v, (w, i) ∈ word_index → dict_get embeddings_index w = Ok v →
            length v = dim) →
  ∃ m, word_embedding_matrix zero dim word_index embeddings_index = Ok m ∧
       length m = (length word_index + 1)%nat ∧
       ∀ (j : nat) row, m !! j = Some row →
         (row = replicate dim zero ∧
          ∀ w, (w, Z.of_nat j) ∈ word_index →
               ∃ e, dict_get embeddings_index w = Err e) ∨
         (∃ w, (w, Z.of_nat j) ∈ word_index ∧ dict_get embeddings_index w = Ok row).
Proof.
  intros Hrange Hdim. unfold word_embedding_matrix.
  apply (word_embedding_fold zero dim embeddings_index _ word_index []).
  - apply length_replicate.
  - intros j row Hj. left. apply lookup_replicate in Hj as [-> _].
    split; [done|]. intros w Hw. by apply not_elem_of_nil in Hw.
  - eapply Forall_impl; [exact Hrange|]. intros p Hp. simpl in Hp |- *. lia.
  - exact Hdim.
Qed.

Lemma word_embedding_rows_witness :
  ∃ m, word_embedding_matrix 0%nat 2 [("good", 1); ("bad", 2)]
         [("good", [5; 6]%nat)] = Ok m ∧
       length m = (length [("good", 1); ("bad", 2)] + 1)%nat ∧
       ∀ (j : nat) row, m !! j = Some row →
         (row = replicate 2 0%nat ∧
          ∀ w, (w, Z.of_nat j) ∈ [("good", 1); ("bad", 2)] →
               ∃ e, dict_get [("good", [5; 6]%nat)] w = Err e) ∨
         (∃ w, (w, Z.of_nat j) ∈ [("good", 1); ("bad", 2)] ∧
               dict_get [("good", [5; 6]%nat)] w = Ok row).
Proof.
  apply word_embedding_rows.
  - repeat constructor; simpl; lia.
  - intros w i v Hin Hv. apply elem_of_cons in Hin as [Hin|Hin].
    + injection Hin as -> ->. vm_compute in Hv. by injection Hv as <-.
    + apply elem_of_cons in Hin as [Hin|Hin]; [|by apply not_elem_of_nil in Hin].
      injection Hin as -> ->. vm_compute in Hv. discriminate.
Defined.

(** ** Thresholded scores in [predict]'s dicts *)

Lemma SFcompare_not_nan x y :
  is_nan x = false → is_nan y = false → SFcompare x y ≠ None.
Proof.
  destruct x as [sx|sx| |sx mx ex], y as [sy|sy| |sy my ey]; simpl; try done;
    intros _ _; repeat case_match; done.
Qed.

Lemma threshold_row_binary t row :
  is_nan t = false → Forall (λ x, is_nan x = false) row →
  Forall (λ y, y = float_zero ∨ y = float_one) (threshold_row t row).
Proof.
  intros Ht Hrow. unfold threshold_row. rewrite map_map.
  apply Forall_fmap. eapply Forall_impl; [exact Hrow|]. intros x Hx. simpl.
  destruct (SFleb t x) eqn:Hle.
  - destruct (SFltb float_one t); [by left|by right].
  - assert (Hlt : SFltb x t = true).
    { unfold SFleb in Hle. unfold SFltb. rewrite (SFcompare_swap t x).
      pose proof (SFcompare_not_nan t x Ht Hx) as Hs.
      destruct (SFcompare t x) as [[]|]; simpl in *; congruence. }
    rewrite Hlt. by left.
Qed.

Lemma py_map2_elem {A B C} (f : A → B → result C) xs ys zs z :
  py_map2 f xs ys = Ok zs → z ∈ zs → ∃ x y, x ∈ xs ∧ y ∈ ys ∧ f x y = Ok z.
Proof.
  revert ys zs. induction xs as [|x xs IH]; intros ys zs H Hz; simpl in H.
  - injection H as <-. by apply not_elem_of_nil in Hz.
  - destruct ys as [|y ys]; [discriminate|].
    destruct (f x y) as [c|e] eqn:Hf; [|discriminate]. simpl in H.
    destruct (py_map2 f xs ys) as [cs|e] eqn:Hr; [|discriminate].
    injection H as <-. apply elem_of_cons in Hz as [->|Hz].
    + exists x, y. split_and!; [apply in_list_head|apply in_list_head|done].
    + destruct (IH ys cs Hr Hz) as (x' & y' & Hx & Hy & Hf').
      exists x', y'. split_and!; [by right|by right|done].
Qed.

Lemma format_output_confidences st words res out :
  format_output_dic st words res = Ok out →
  ∃ c cs, out = ODict words c (c :: cs) ∧
          Forall (λ cd, cand_confidence cd ∈ res) (c :: cs).
Proof.
  unfold format_output_dic.
  destruct (py_map _ (sort_by_score _)) as [cands|e] eqn:Hc; [|discriminate].
  simpl. destruct cands as [|c cs]; [discriminate|]. intros [= <-].
  destruct (py_map_perm _ _ _ _ (symmetry (sort_by_score_perm
              (zip (seq 0 (length res)) res))) Hc) as (cs0 & H0 & Hp).
  destruct (candidates_in_order _ 0 res cs0 H0) as [_ Heq].
  exists c, cs. split; [done|].
  apply Forall_forall. intros cd Hcd. rewrite <- Hp, Heq in Hcd.
  clear -Hcd. revert Hcd. generalize (map cand_name cs0). intros names.
  revert names. induction res as [|x res IH]; intros names Hcd;
    destruct names as [|n names]; simpl in Hcd;
    try by apply not_elem_of_nil in Hcd.
  apply elem_of_cons in Hcd as [->|Hcd]; [apply in_list_head|].
  right. by apply (IH names).
Qed.

(** X21: in multi-label mode [predict] with [output_dict] reports the
    thresholded scores, not the network's: with a threshold and scores
    that are not NaN, every [confidence] in the dicts it returns for a
    list of sentences is 0.0 or 1.0. *)
Theorem multi_label_dict_confidences tok net st ss t v :
  st.(multi_label) = true → is_nan t = false →
  (∀ row, Forall (λ x, is_nan x = false) (net row)) →
  predict tok net st (map ESent ss) true t = Ok v →
  ∃ rs, v = OList rs ∧
        Forall (λ r, ∃ ws c cs, r = ODict ws c (c :: cs) ∧
                  Forall (λ cd, cand_confidence cd = float_zero ∨
                                cand_confidence cd = float_one) (c :: cs)) rs.
Proof.
  intros Hm Ht Hnet. unfold predict. destruct ss as [|s ss']; [simpl; discriminate|].
  assert (Htok : tokenize_input tok (map ESent (s :: ss'))
                 = Ok (TokMany (map tok (s :: ss')))).
  { unfold tokenize_input. simpl map. rewrite <- (map_cons ESent s ss').
    rewrite py_map_ESent. done. }
  rewrite Htok. cbv [mbind result_bind]. simpl is_list_arg. cbv iota beta.
  destruct (pad_sequences _ _) as [padded|e]; [|discriminate].
  rewrite Hm. unfold predict_results, words_of. rewrite py_map_ESent.
  cbv [mbind result_bind].
  destruct (py_map2 _ _ _) as [rs|e] eqn:Hrs; [|discriminate].
  intros [= <-]. exists rs. split; [done|].
  apply Forall_forall. intros r Hr.
  destruct (py_map2_elem _ _ _ _ r Hrs Hr) as (ws & row & _ & Hrow & Hf).
  destruct (format_output_confidences st ws row r Hf) as (c & cs & -> & Hconf).
  exists ws, c, cs. split; [done|].
  apply list_elem_of_fmap in Hrow as (row0 & -> & Hrow0).
  apply list_elem_of_fmap in Hrow0 as (p & -> & _).
  pose proof (threshold_row_binary t (net p) Ht (Hnet p)) as Hbin.
  eapply Forall_impl; [exact Hconf|]. intros cd Hcd. simpl in Hcd.
  rewrite Forall_forall in Hbin. by apply Hbin.
Qed.

Lemma multi_label_dict_confidences_witness :
  ∃ rs, OList [ODict ["w"] (mk_candidate "a" float_one)
                [mk_candidate "a" float_one; mk_candidate "c" float_one;
                 mk_candidate "b" float_zero]] = OList rs ∧
        Forall (λ r, ∃ ws c cs, r = ODict ws c (c :: cs) ∧
                  Forall (λ cd, cand_confidence cd = float_zero ∨
                                cand_confidence cd = float_one) (c :: cs)) rs.
Proof.
  apply (multi_label_dict_confidences tokenize_example net_scores_example
           st_multi_example [["w"]] default_threshold).
  - reflexivity.
  - vm_compute. reflexivity.
  - intros row. apply (bool_decide_unpack _). vm_compute. reflexivity.
  - vm_compute. reflexivity.
Defined.

(** X22: the generator's edge cases.  With batch size 0 it raises
    ZeroDivisionError (at [len(x_data) // batch_size]) before yielding
    anything.  With a batch size above the number of examples the page
    list is [[0]] and that page selects all the examples. *)
Theorem generator_batch_size_edges tok st x y bert :
  (∀ shuffles, shuffles ≠ [] →
     get_data_generator tok st x y 0 bert shuffles = ([], Some ZeroDivisionError)) ∧
  (∀ b, (length x < b)%nat → (length y ≤ b)%nat →
     page_list (length x) b = Ok [0%nat] ∧ select_page x y b 0 = (x, y)).
Proof.
  split.
  - intros [|perm rest] Hs; [done|]. reflexivity.
  - intros b Hx Hy. split.
    + unfold page_list, py_floordiv. rewrite decide_False by lia. simpl.
      rewrite Nat.div_small by lia. reflexivity.
    + unfold select_page, py_slice. simpl.
      rewrite !Nat.sub_0_r, !drop_0.
      rewrite (take_ge x), (take_ge y) by lia.
      by case_decide.
Qed.


